(** * ERxn: the data-sampling script and the molecular transformer script

    A shallow embedding of [scripts/09_data_sampling.py] and of
    [scripts/13_mol_transformer.py], with the properties of the data split,
    the tokenizer, the one-hot encoder, the attention mask, the forward pass
    and the training loop. *)

From Stdlib Require Import List Arith Lia String Ascii Bool Permutation.
From Stdlib Require Import ZArith QArith Reals Lra.
Import ListNotations.

Local Open Scope nat_scope.

(** ** Exceptions and the error monad shared by both scripts *)

Inductive exn : Type :=
| AssertionError
| IndexError
| ValueError
| KeyError
| ZeroDivisionError
| FileNotFoundError
| AttributeError
| RuntimeError
| NameError.

Inductive result (A : Type) : Type :=
| Ok (a : A)
| Raise (e : exn).
Arguments Ok {A} a.
Arguments Raise {A} e.

Definition bind {A B : Type} (m : result A) (k : A -> result B) : result B :=
  match m with
  | Ok a => k a
  | Raise e => Raise e
  end.

Notation "x <- m ;; k" := (bind m (fun x => k))
  (at level 61, m at next level, right associativity).
Notation "' p <- m ;; k" := (bind m (fun x => match x with p => k end))
  (at level 61, p pattern, m at next level, right associativity).

Fixpoint mapM {A B : Type} (f : A -> result B) (l : list A) : result (list B) :=
  match l with
  | [] => Ok []
  | a :: t => b <- f a ;; bs <- mapM f t ;; Ok (b :: bs)
  end.

(** ** scripts/09_data_sampling.py *)

Module DataSampling.

Definition MAX_SAMPLES : nat := 100.
Definition MIN_SAMPLES : nat := 10.

(** A row of the frame read from [02_uniprotID_and_EC_reduced.csv]: the index
    label [read_csv] gives it, column 0 (the UniProt identifier) and column 1
    (the ['EC'] label), and the ['protein'] column added on line 37. *)
Record row : Type := mkRow {
  index : nat;
  col0 : string;
  EC : string;
  protein : string
}.

Definition DataFrame : Type := list row.

(** [pd.read_csv]: the rows in file order under a fresh [RangeIndex]; the
    ['protein'] column does not exist yet and is filled on line 37. *)
Fixpoint read_csv_from (i : nat) (lines : list (string * string)) : DataFrame :=
  match lines with
  | [] => []
  | (id, ec) :: t => mkRow i id ec EmptyString :: read_csv_from (S i) t
  end.

Definition read_csv (lines : list (string * string)) : DataFrame :=
  read_csv_from 0 lines.

Definition mem_string (s : string) (l : list string) : bool :=
  existsb (String.eqb s) l.

Definition mem_nat (n : nat) (l : list nat) : bool :=
  existsb (Nat.eqb n) l.

(** [df.drop(labels)]: the rows whose index label is not among [labels]. *)
Definition drop (labels : list nat) (df : DataFrame) : DataFrame :=
  filter (fun r => negb (mem_nat (index r) labels)) df.

(** Lines 25-31: the loop over [ec_data.iterrows()], with the frame being
    rebound and the list [pcs] as the state. *)
Fixpoint remove_missing (point_clouds : list string) (rows : list row)
    (ec_data : DataFrame) (pcs : list string) : DataFrame * list string :=
  match rows with
  | [] => (ec_data, pcs)
  | r :: rest =>
      let p := (col0 r ++ ".txt")%string in
      if negb (mem_string p point_clouds)
      then remove_missing point_clouds rest (drop [index r] ec_data) pcs
      else remove_missing point_clouds rest ec_data (pcs ++ [p])
  end.

(** Line 37, [ec_data['protein'] = pcs]: a column of another length is a
    [ValueError]. *)
Fixpoint set_protein (df : DataFrame) (pcs : list string) : result DataFrame :=
  match df, pcs with
  | [], [] => Ok []
  | r :: t, p :: ps =>
      t' <- set_protein t ps ;;
      Ok (mkRow (index r) (col0 r) (EC r) p :: t')
  | _, _ => Raise ValueError
  end.

(** [ec_data.groupby('EC')['EC'].transform('count')] at one row. *)
Definition count_EC (label : string) (df : DataFrame) : nat :=
  List.length (filter (fun r => String.eqb (EC r) label) df).

(** Line 40, the low-count filter. *)
Definition filter_low_counts (ec_data : DataFrame) : DataFrame :=
  filter (fun r => MIN_SAMPLES <=? count_EC (EC r) ec_data) ec_data.

(** [Series.unique()]: the distinct values in order of first appearance. *)
Fixpoint unique (l : list string) : list string :=
  match l with
  | [] => []
  | x :: t => x :: filter (fun y => negb (String.eqb y x)) (unique t)
  end.

(** A sampling fraction as an exact ratio: 0.2 = 1/5, 0.25 = 1/4, 0.5 = 1/2. *)
Record frac : Type := mkFrac { fnum : nat; fden : nat }.

Definition frac_0_2 : frac := mkFrac 1 5.
Definition frac_0_25 : frac := mkFrac 1 4.
Definition frac_0_5 : frac := mkFrac 1 2.

(** Python's [round(frac * n)]: to the nearest integer, a tie going to the
    even neighbour.  A fifth of an integer is never a tie, and a quarter or a
    half of one is exact in binary floating point, so the exact ratio rounds
    as the float product does. *)
Definition py_round (f : frac) (n : nat) : nat :=
  let q := (fnum f * n) / fden f in
  let r := (fnum f * n) mod fden f in
  if 2 * r <? fden f then q
  else if fden f <? 2 * r then q + 1
  else if Nat.even q then q else q + 1.

(** [df.take(locs)]: the rows at the given positions; a position out of
    range is an [IndexError]. *)
Definition take (df : DataFrame) (locs : list nat) : result DataFrame :=
  mapM (fun i => match nth_error df i with
                 | Some r => Ok r
                 | None => Raise IndexError
                 end) locs.

(** The frame at line 37, before the low-count filter. *)
Definition with_point_cloud (point_clouds : list string)
    (lines : list (string * string)) : result DataFrame :=
  let ec_data := read_csv lines in
  let '(ec_data, pcs) := remove_missing point_clouds ec_data ec_data [] in
  set_protein ec_data pcs.

(** Lines 17-45: the frame written to [09_balanced_data_set.csv]. *)
Definition balanced_data_set (point_clouds : list string)
    (lines : list (string * string)) : result DataFrame :=
  ec_data <- with_point_cloud point_clouds lines ;;
  Ok (filter_low_counts ec_data).

Section Split.

(** [RandomState(1).choice(a, size=size, replace=False)]: the positions that
    the generator seeded with [random_state=1] draws. *)
Variable choice : nat -> nat -> list nat.

(** [df.sample(frac=f, random_state=1)]. *)
Definition sample (df : DataFrame) (f : frac) : result DataFrame :=
  take df (choice (List.length df) (py_round f (List.length df))).

(** Lines 60-66 and 77-80: the three parts of one label. *)
Definition split_label (data : DataFrame) (label : string)
  : result (DataFrame * DataFrame * DataFrame) :=
  let df := filter (fun r => String.eqb (EC r) label) data in
  let num_data := List.length df in
  if 20 <=? num_data then
    test <- sample df frac_0_2 ;;
    valid <- sample test frac_0_25 ;;
    let train := drop (map index test) df in
    let test := drop (map index valid) test in
    Ok (train, test, valid)
  else
    test <- sample df frac_0_2 ;;
    valid <- sample test frac_0_5 ;;
    let train := drop (map index test) df in
    let test := drop (map index valid) test in
    Ok (train, test, valid).

(** The six lists the loop appends to. *)
Record lists : Type := mkLists {
  train_x : list string; train_y : list string;
  test_x : list string; test_y : list string;
  val_x : list string; val_y : list string
}.

Definition empty_lists : lists := mkLists [] [] [] [] [] [].

(** Lines 67-75 and 81-89: [row[0]] and [row[1]] of every row of the three
    parts are appended. *)
Definition append_parts (acc : lists) (train test valid : DataFrame) : lists :=
  mkLists (train_x acc ++ map col0 train) (train_y acc ++ map EC train)
          (test_x acc ++ map col0 test) (test_y acc ++ map EC test)
          (val_x acc ++ map col0 valid) (val_y acc ++ map EC valid).

(** Lines 59-89: the loop over the labels. *)
Fixpoint split_loop (data : DataFrame) (labels : list string) (acc : lists)
  : result lists :=
  match labels with
  | [] => Ok acc
  | label :: rest =>
      '(train, test, valid) <- split_label data label ;;
      split_loop data rest (append_parts acc train test valid)
  end.

(** What the script writes: the balanced frame and the three split frames,
    each split frame with the columns ['point_cloud'] and ['EC']. *)
Record outputs : Type := mkOutputs {
  balanced : DataFrame;
  train_csv : list (string * string);
  test_csv : list (string * string);
  valid_csv : list (string * string)
}.

Definition split_frame (data : DataFrame) : result lists :=
  split_loop data (unique (map EC data)) empty_lists.

Definition script (point_clouds : list string) (lines : list (string * string))
  : result outputs :=
  ec_data <- balanced_data_set point_clouds lines ;;
  l <- split_frame ec_data ;;
  Ok (mkOutputs ec_data
        (combine (train_x l) (train_y l))
        (combine (test_x l) (test_y l))
        (combine (val_x l) (val_y l))).

End Split.

(** What [choice(a, size, replace=False)] is documented to return: [size]
    distinct positions below [a]. *)
Definition choice_contract (choice : nat -> nat -> list nat) : Prop :=
  forall a size,
    size <= a ->
    NoDup (choice a size) /\
    Forall (fun i => i < a) (choice a size) /\
    List.length (choice a size) = size.

(** A generator that satisfies the contract of [choice]: the first [size]
    positions. *)
Definition choice_prefix (a size : nat) : list nat := seq 0 size.

(** The test of line 28 at one row, and the row once line 37 has run. *)
Definition keeps (point_clouds : list string) (r : row) : bool :=
  mem_string (col0 r ++ ".txt")%string point_clouds.

Definition add_protein (r : row) : row :=
  mkRow (index r) (col0 r) (EC r) (col0 r ++ ".txt")%string.

(** Columns 0 and 1 of a row, as lines 67-89 read them. *)
Definition xy (r : row) : string * string := (col0 r, EC r).

(** The fraction of the sample that goes to valid, by the class size. *)
Definition valid_frac (n : nat) : frac :=
  if 20 <=? n then frac_0_25 else frac_0_5.

(** A file of [n] rows of one class, each with its point cloud. *)
Definition one_class (n : nat) : list (string * string) :=
  map (fun _ => ("P12345", "1.1.1.1")%string) (seq 0 n).

End DataSampling.


(** ** scripts/13_mol_transformer.py: the tokenizer *)

Module Tokenizer.

Definition str : Type := list ascii.

(** The part of Python's [re] that the pattern of [smi_tokenizer] uses: a
    character, a negated one-character class, the class [[0-9]], sequence,
    ordered alternation, the greedy [?] and [+] and a fixed repetition. *)
Inductive cls : Type :=
| Lit (c : ascii)
| Not (c : ascii)
| Digit.

Inductive regex : Type :=
| Atom (c : cls)
| Seq (r1 r2 : regex)
| Alt (r1 r2 : regex)
| Opt (r : regex)
| Plus (c : cls)
| Rep (n : nat) (c : cls).

Definition in_cls (c : cls) (x : ascii) : bool :=
  match c with
  | Lit a => Ascii.eqb x a
  | Not a => negb (Ascii.eqb x a)
  | Digit => (48 <=? nat_of_ascii x) && (nat_of_ascii x <=? 57)
  end.

(** A backtracking matcher in continuation-passing style.  [acc] holds the
    characters matched so far, last first; the continuation is given the
    matched characters and the rest of the input.  Alternation tries the left
    branch first; [?] and [+] take as much as they can and give back on
    failure of the continuation. *)
Section Matcher.
Context {R : Type}.

Fixpoint star_cls (c : cls) (acc s : str) (k : str -> str -> option R)
  : option R :=
  match s with
  | x :: t =>
      if in_cls c x then
        match star_cls c (x :: acc) t k with
        | Some r => Some r
        | None => k acc s
        end
      else k acc s
  | [] => k acc s
  end.

Fixpoint rep_cls (n : nat) (c : cls) (acc s : str)
    (k : str -> str -> option R) : option R :=
  match n with
  | 0 => k acc s
  | S n' =>
      match s with
      | x :: t => if in_cls c x then rep_cls n' c (x :: acc) t k else None
      | [] => None
      end
  end.

Fixpoint rmatch (r : regex) (acc s : str) (k : str -> str -> option R)
  : option R :=
  match r with
  | Atom c =>
      match s with
      | x :: t => if in_cls c x then k (x :: acc) t else None
      | [] => None
      end
  | Seq r1 r2 => rmatch r1 acc s (fun acc' s' => rmatch r2 acc' s' k)
  | Alt r1 r2 =>
      match rmatch r1 acc s k with
      | Some r => Some r
      | None => rmatch r2 acc s k
      end
  | Opt r1 =>
      match rmatch r1 acc s k with
      | Some r => Some r
      | None => k acc s
      end
  | Plus c =>
      match s with
      | x :: t => if in_cls c x then star_cls c (x :: acc) t k else None
      | [] => None
      end
  | Rep n c => rep_cls n c acc s k
  end.

End Matcher.

(** [regex.match] at the head of [s]: the matched text and what follows. *)
Definition match_at (r : regex) (s : str) : option (str * str) :=
  rmatch r [] s (fun acc rest => Some (rev acc, rest)).

(** [regex.findall(s)] for a pattern that is one capture group: the matches
    from left to right, a character at which nothing matches being skipped.
    The fuel bounds the number of steps; the length of the input is
    enough. *)
Fixpoint findall_fuel (fuel : nat) (r : regex) (s : str) : list str :=
  match fuel with
  | 0 => []
  | S fuel' =>
      match s with
      | [] => []
      | _ :: t =>
          match match_at r s with
          | Some (tok, rest) =>
              match tok with
              | [] => [] :: findall_fuel fuel' r t
              | _ => tok :: findall_fuel fuel' r rest
              end
          | None => findall_fuel fuel' r t
          end
      end
  end.

Definition findall (r : regex) (s : str) : list str :=
  findall_fuel (List.length s) r s.

Definition lit (s : string) : regex :=
  match list_ascii_of_string s with
  | [] => Atom Digit
  | c :: _ => Atom (Lit c)
  end.

Fixpoint alts (r : regex) (rs : list regex) : regex :=
  match rs with
  | [] => r
  | r' :: rs' => Alt r (alts r' rs')
  end.

(** The pattern of line 39, alternative by alternative:
    [(\[[^\]]+]|Br?|Cl?|N|O|S|P|F|I|b|c|n|o|s|p|\(|\)|\.|=|#|-|\+|\\|\/|:|~|@|\?|>|\*|\$|\%[0-9]{2}|[0-9])]. *)
Definition pattern : regex :=
  alts (Seq (lit "[") (Seq (Plus (Not "]"%char)) (lit "]")))
    [ Seq (lit "B") (Opt (lit "r"));
      Seq (lit "C") (Opt (lit "l"));
      lit "N"; lit "O"; lit "S"; lit "P"; lit "F"; lit "I";
      lit "b"; lit "c"; lit "n"; lit "o"; lit "s"; lit "p";
      lit "("; lit ")"; lit "."; lit "="; lit "#"; lit "-"; lit "+";
      lit "\"; lit "/"; lit ":"; lit "~"; lit "@"; lit "?"; lit ">";
      lit "*"; lit "$";
      Seq (lit "%") (Rep 2 Digit);
      Atom Digit ].

(** [sep.join(l)]. *)
Fixpoint join (sep : str) (l : list str) : str :=
  match l with
  | [] => []
  | [x] => x
  | x :: t => x ++ sep ++ join sep t
  end.

Definition str_eqb (a b : str) : bool :=
  if list_eq_dec Ascii.ascii_dec a b then true else false.

(** Lines 34-43. *)
Definition smi_tokenizer (smi : str) : result str :=
  let tokens := findall pattern smi in
  if str_eqb smi (List.concat tokens)
  then Ok (join [" "%char] tokens)
  else Raise AssertionError.

(** The language of a regular expression: the texts it matches in full. *)
Fixpoint lang (r : regex) (s : str) : Prop :=
  match r with
  | Atom c => exists x, s = [x] /\ in_cls c x = true
  | Seq r1 r2 => exists u v, s = u ++ v /\ lang r1 u /\ lang r2 v
  | Alt r1 r2 => lang r1 s \/ lang r2 s
  | Opt r1 => s = [] \/ lang r1 s
  | Plus c => s <> [] /\ Forall (fun x => in_cls c x = true) s
  | Rep n c => List.length s = n /\ Forall (fun x => in_cls c x = true) s
  end.

(** A text that is a sequence of matches of the pattern. *)
Definition tokenizable (smi : str) : Prop :=
  exists toks, Forall (lang pattern) toks /\ List.concat toks = smi.

Definition smiles (s : string) : str := list_ascii_of_string s.

(** [out] is the tokens [toks] written one after the other with exactly one
    space between two neighbours: putting a space in front of [out] gives
    the tokens, each with a space in front. *)
Definition spaced (toks : list str) (out : str) : Prop :=
  match toks with
  | [] => out = []
  | _ :: _ => " "%char :: out = flat_map (fun t => " "%char :: t) toks
  end.

(** A text that a token can be followed by: the empty text, or one that does
    not start with [r] or [l]. *)
Definition follows (rest : str) : Prop :=
  forall x t, rest = x :: t ->
              Ascii.eqb x "r" = false /\ Ascii.eqb x "l" = false.

End Tokenizer.

(** ** The tensor operations that scripts/13_mol_transformer.py uses *)

Module Torch.

Local Open Scope R_scope.

(** A tensor: its shape and its entry at each multi-index.  Entries are
    real numbers: rounding, overflow and NaN of floating point are outside
    this model. *)
Record Tensor : Type := mkTensor {
  shape : list nat;
  data : list nat -> R
}.

(** A tensor of token indices. *)
Record LongTensor : Type := mkLongTensor {
  lshape : list nat;
  ldata : list nat -> nat
}.

(** A float that may be infinite, for the mask of [generate_mask]. *)
Inductive float : Type :=
| Finite (r : R)
| NegInf
| PosInf
| NaN.

Record MaskTensor : Type := mkMaskTensor {
  mshape : list nat;
  mdata : list nat -> float
}.

Definition fmul (a b : float) : float :=
  match a, b with
  | NaN, _ | _, NaN => NaN
  | Finite x, Finite y => Finite (x * y)
  | Finite x, NegInf | NegInf, Finite x =>
      if Rlt_dec 0 x then NegInf else if Rlt_dec x 0 then PosInf else NaN
  | Finite x, PosInf | PosInf, Finite x =>
      if Rlt_dec 0 x then PosInf else if Rlt_dec x 0 then NegInf else NaN
  | NegInf, NegInf | PosInf, PosInf => PosInf
  | NegInf, PosInf | PosInf, NegInf => NegInf
  end.

Definition fadd (a b : float) : float :=
  match a, b with
  | NaN, _ | _, NaN => NaN
  | Finite x, Finite y => Finite (x + y)
  | NegInf, PosInf | PosInf, NegInf => NaN
  | NegInf, _ | _, NegInf => NegInf
  | PosInf, _ | _, PosInf => PosInf
  end.

(** Sums over an index range. *)
Fixpoint sum_n (n : nat) (f : nat -> R) : R :=
  match n with
  | O => 0
  | S m => sum_n m f + f m
  end.

Fixpoint fsum_n (n : nat) (f : nat -> float) : float :=
  match n with
  | O => Finite 0
  | S m => fadd (fsum_n m f) (f m)
  end.

Definition dim_at (sh : list nat) (d : nat) : nat := nth d sh 0%nat.

Definition numel (sh : list nat) : nat := fold_right Nat.mul 1%nat sh.

(** Row-major position of a multi-index, and back. *)
Fixpoint ravel (sh idx : list nat) : nat :=
  match sh, idx with
  | _ :: ds, i :: is' => (i * numel ds + ravel ds is')%nat
  | _, _ => 0%nat
  end.

Fixpoint unravel (sh : list nat) (pos : nat) : list nat :=
  match sh with
  | [] => []
  | _ :: ds => (pos / numel ds)%nat :: unravel ds (pos mod numel ds)%nat
  end.

(** All multi-indices of a shape. *)
Fixpoint indices (sh : list nat) : list (list nat) :=
  match sh with
  | [] => [[]]
  | d :: ds => flat_map (fun i => map (cons i) (indices ds)) (seq 0 d)
  end.

(** [t.reshape(sh)]. *)
Definition reshape (t : Tensor) (sh : list nat) : result Tensor :=
  if (numel (shape t) =? numel sh)%nat
  then Ok (mkTensor sh (fun idx => data t (unravel (shape t) (ravel sh idx))))
  else Raise RuntimeError.

(** [t.flatten(start)] with [start] below the rank. *)
Definition flatten (t : Tensor) (start : nat) : result Tensor :=
  if (start <? List.length (shape t))%nat
  then reshape t (firstn start (shape t) ++ [numel (skipn start (shape t))])
  else Raise IndexError.

Fixpoint position (j : nat) (dims : list nat) : nat :=
  match dims with
  | [] => 0%nat
  | d :: ds => if (d =? j)%nat then 0%nat else S (position j ds)
  end.

Definition is_permutation (dims : list nat) (rank : nat) : bool :=
  (List.length dims =? rank)%nat &&
  forallb (fun j => existsb (Nat.eqb j) dims) (seq 0 rank).

(** [t.permute(dims)]: axis [k] of the result is axis [dims[k]] of [t]. *)
Definition permute (t : Tensor) (dims : list nat) : result Tensor :=
  if is_permutation dims (List.length (shape t))
  then Ok (mkTensor (map (dim_at (shape t)) dims)
             (fun idx => data t (map (fun j => nth (position j dims) idx 0%nat)
                                     (seq 0 (List.length dims)))))
  else Raise RuntimeError.

(** [t[i]]: the slice at position [i] of the first axis. *)
Definition select (t : Tensor) (i : nat) : result Tensor :=
  match shape t with
  | d :: ds =>
      if (i <? d)%nat
      then Ok (mkTensor ds (fun idx => data t (i :: idx)))
      else Raise IndexError
  | [] => Raise IndexError
  end.

(** [t[:n]] on the first axis. *)
Definition slice_to (t : Tensor) (n : nat) : result Tensor :=
  match shape t with
  | d :: ds => Ok (mkTensor (Nat.min n d :: ds) (data t))
  | [] => Raise IndexError
  end.

(** Broadcasting of two shapes, aligned at the last axis. *)
Fixpoint broadcast_rev (a b : list nat) : result (list nat) :=
  match a, b with
  | [], _ => Ok b
  | _, [] => Ok a
  | x :: a', y :: b' =>
      r <- broadcast_rev a' b' ;;
      if (x =? y)%nat then Ok (x :: r)
      else if (x =? 1)%nat then Ok (y :: r)
      else if (y =? 1)%nat then Ok (x :: r)
      else Raise RuntimeError
  end.

Definition broadcast_shapes (a b : list nat) : result (list nat) :=
  r <- broadcast_rev (rev a) (rev b) ;; Ok (rev r).

(** The index into an operand of shape [sh] for the index [idx] of the
    broadcast result. *)
Definition broadcast_index (sh idx : list nat) : list nat :=
  map (fun '(d, i) => if (d =? 1)%nat then 0%nat else i)
      (combine sh (skipn (List.length idx - List.length sh) idx)).

(** [a + b]. *)
Definition add (a b : Tensor) : result Tensor :=
  sh <- broadcast_shapes (shape a) (shape b) ;;
  Ok (mkTensor sh (fun idx => data a (broadcast_index (shape a) idx) +
                              data b (broadcast_index (shape b) idx))).

(** [t * c] for a number [c]. *)
Definition scale (t : Tensor) (c : R) : Tensor :=
  mkTensor (shape t) (fun idx => data t idx * c).

(** [t.softmax(dim=-1)]. *)
Definition softmax (t : Tensor) : Tensor :=
  mkTensor (shape t)
    (fun idx =>
       exp (data t idx) /
       sum_n (last (shape t) 0%nat)
             (fun j => exp (data t (removelast idx ++ [j])))).

(** The size of an axis that two operands of [einsum] share: equal sizes, or
    one of them 1. *)
Definition shared (x y : nat) : result nat :=
  if (x =? y)%nat then Ok x
  else if (x =? 1)%nat then Ok y
  else if (y =? 1)%nat then Ok x
  else Raise RuntimeError.

Definition bc (d i : nat) : nat := if (d =? 1)%nat then 0%nat else i.

(** [torch.einsum('kabc,qdef->qabe', x, y)]. *)
Definition einsum_kabc_qdef_qabe (x y : Tensor) : result Tensor :=
  match shape x, shape y with
  | [nk; na; nb; nc], [nq; nd; ne; nf] =>
      Ok (mkTensor [nq; na; nb; ne]
            (fun idx =>
               match idx with
               | [q; a; b; e] =>
                   sum_n nk (fun k => sum_n nc (fun c =>
                   sum_n nd (fun d => sum_n nf (fun f =>
                     data x [k; a; b; c] * data y [q; d; e; f]))))
               | _ => 0
               end))
  | _, _ => Raise RuntimeError
  end.

(** [torch.einsum('xy,abcd->abxy', mask, y)]. *)
Definition einsum_xy_abcd_abxy (mask : MaskTensor) (y : Tensor)
  : result MaskTensor :=
  match mshape mask, shape y with
  | [nx; ny], [na; nb; nc; nd] =>
      Ok (mkMaskTensor [na; nb; nx; ny]
            (fun idx =>
               match idx with
               | [a; b; x; y'] =>
                   fsum_n nc (fun c => fsum_n nd (fun d =>
                     fmul (mdata mask [x; y']) (Finite (data y [a; b; c; d]))))
               | _ => Finite 0
               end))
  | _, _ => Raise RuntimeError
  end.

(** [torch.einsum('qabc,kdef->bqaf', x, y)]. *)
Definition einsum_qabc_kdef_bqaf (x y : Tensor) : result Tensor :=
  match shape x, shape y with
  | [nq; na; nb; nc], [nk; nd; ne; nf] =>
      Ok (mkTensor [nb; nq; na; nf]
            (fun idx =>
               match idx with
               | [b; q; a; f] =>
                   sum_n nc (fun c => sum_n nk (fun k =>
                   sum_n nd (fun d => sum_n ne (fun e =>
                     data x [q; a; b; c] * data y [k; d; e; f]))))
               | _ => 0
               end))
  | _, _ => Raise RuntimeError
  end.

(** [torch.einsum('abkd,abqd->abqk', x, y)]. *)
Definition einsum_abkd_abqd_abqk (x y : Tensor) : result Tensor :=
  match shape x, shape y with
  | [xa; xb; nk; xd], [ya; yb; nq; yd] =>
      na <- shared xa ya ;;
      nb <- shared xb yb ;;
      nd <- shared xd yd ;;
      Ok (mkTensor [na; nb; nq; nk]
            (fun idx =>
               match idx with
               | [a; b; q; k] =>
                   sum_n nd (fun d =>
                     data x [bc xa a; bc xb b; k; bc xd d] *
                     data y [bc ya a; bc yb b; q; bc yd d])
               | _ => 0
               end))
  | _, _ => Raise RuntimeError
  end.

(** [torch.einsum('abts,abse->tabe', x, y)]. *)
Definition einsum_abts_abse_tabe (x y : Tensor) : result Tensor :=
  match shape x, shape y with
  | [xa; xb; nt; xs], [ya; yb; ys; ne] =>
      na <- shared xa ya ;;
      nb <- shared xb yb ;;
      ns <- shared xs ys ;;
      Ok (mkTensor [nt; na; nb; ne]
            (fun idx =>
               match idx with
               | [t; a; b; e] =>
                   sum_n ns (fun s =>
                     data x [bc xa a; bc xb b; t; bc xs s] *
                     data y [bc ya a; bc yb b; bc ys s; e])
               | _ => 0
               end))
  | _, _ => Raise RuntimeError
  end.

(** The learned parameters and the random draws of the dropout layers, by
    the path of the module that owns them, as in a [state_dict]. *)
Inductive seg : Type :=
| Name (s : string)
| Idx (n : nat).

Definition path : Type := list seg.
Definition state_dict : Type := path -> list nat -> R.

(** [nn.Linear(in_features, out_features, bias)]. *)
Record Linear : Type := mkLinear {
  in_features : nat;
  out_features : nat;
  weight : nat -> nat -> R;
  bias : option (nat -> R)
}.

Definition Linear_init (sd : state_dict) (p : path)
    (in_f out_f : nat) (use_bias : bool) : Linear :=
  mkLinear in_f out_f
    (fun o k => sd (p ++ [Name "weight"]) [o; k])
    (if use_bias then Some (fun o => sd (p ++ [Name "bias"]) [o]) else None).

Definition Linear_forward (l : Linear) (x : Tensor) : result Tensor :=
  match shape x with
  | [] => Raise RuntimeError
  | _ =>
      if (last (shape x) 0%nat =? in_features l)%nat
      then Ok (mkTensor (removelast (shape x) ++ [out_features l])
                 (fun idx =>
                    let o := last idx 0%nat in
                    sum_n (in_features l)
                      (fun k => data x (removelast idx ++ [k]) * weight l o k)
                    + match bias l with Some b => b o | None => 0 end))
      else Raise RuntimeError
  end.

(** [nn.LayerNorm(dim, eps)]. *)
Record LayerNorm : Type := mkLayerNorm {
  normalized_shape : nat;
  eps : R;
  ln_weight : nat -> R;
  ln_bias : nat -> R
}.

Definition LayerNorm_init (sd : state_dict) (p : path) (dim : nat) (e : R)
  : LayerNorm :=
  mkLayerNorm dim e (fun i => sd (p ++ [Name "weight"]) [i])
                    (fun i => sd (p ++ [Name "bias"]) [i]).

Definition LayerNorm_forward (l : LayerNorm) (x : Tensor) : result Tensor :=
  match shape x with
  | [] => Raise RuntimeError
  | _ =>
      if (last (shape x) 0%nat =? normalized_shape l)%nat
      then
        let n := normalized_shape l in
        let row idx j := data x (removelast idx ++ [j]) in
        let mean idx := sum_n n (row idx) / INR n in
        let var idx :=
          sum_n n (fun j => (row idx j - mean idx) * (row idx j - mean idx))
          / INR n in
        Ok (mkTensor (shape x)
              (fun idx =>
                 (data x idx - mean idx) / sqrt (var idx + eps l)
                 * ln_weight l (last idx 0%nat) + ln_bias l (last idx 0%nat)))
      else Raise RuntimeError
  end.

(** [nn.Dropout(p)]: with [p = 0] the input is returned; otherwise each
    entry is multiplied by the factor drawn for it in this call (1 in
    evaluation mode; 0 or 1/(1-p) in training). *)
Record Dropout : Type := mkDropout {
  prob : R;
  factor : nat -> list nat -> R
}.

Definition Dropout_init (rng : state_dict) (p : path) (pr : R) : Dropout :=
  mkDropout pr (fun call idx => rng (p ++ [Idx call]) idx).

Definition Dropout_forward (d : Dropout) (call : nat) (x : Tensor) : Tensor :=
  if Req_EM_T (prob d) 0 then x
  else mkTensor (shape x) (fun idx => data x idx * factor d call idx).

(** [nn.Embedding(num_embeddings, embedding_dim)]. *)
Record nnEmbedding : Type := mknnEmbedding {
  num_embeddings : nat;
  embedding_dim : nat;
  table : nat -> nat -> R
}.

Definition nnEmbedding_init (sd : state_dict) (p : path)
    (num dim : nat) : nnEmbedding :=
  mknnEmbedding num dim (fun tok j => sd (p ++ [Name "weight"]) [tok; j]).

Definition nnEmbedding_forward (e : nnEmbedding) (x : LongTensor)
  : result Tensor :=
  if forallb (fun idx => (ldata x idx <? num_embeddings e)%nat)
             (indices (lshape x))
  then Ok (mkTensor (lshape x ++ [embedding_dim e])
             (fun idx => table e (ldata x (removelast idx)) (last idx 0%nat)))
  else Raise IndexError.

(** A mask of rank 2, or no mask. *)
Definition mask_ok (mask : option MaskTensor) : Prop :=
  match mask with
  | Some m => exists a b, mshape m = [a; b]
  | None => True
  end.

End Torch.

(** ** scripts/13_mol_transformer.py: the encoder, the model *)

Module MolTransformer.
Import Torch.

Local Open Scope R_scope.

Definition list_eqb (a b : list nat) : bool :=
  if list_eq_dec Nat.eq_dec a b then true else false.

Definition zeros (sh : list nat) : Tensor := mkTensor sh (fun _ => 0).

Fixpoint in_bounds (sh idx : list nat) : bool :=
  match sh, idx with
  | [], [] => true
  | d :: ds, i :: is' => (i <? d)%nat && in_bounds ds is'
  | _, _ => false
  end.

(** [t[idx] = x]. *)
Definition setitem (t : Tensor) (idx : list nat) (x : R) : result Tensor :=
  if in_bounds (shape t) idx
  then Ok (mkTensor (shape t)
             (fun i => if list_eqb i idx then x else data t i))
  else Raise IndexError.

(** Lines 116-117: the loop over [enumerate(v[0, :])] for one [batch]. *)
Fixpoint one_hot_tokens (v : LongTensor) (batch : nat) (positions : list nat)
    (out : Tensor) : result Tensor :=
  match positions with
  | [] => Ok out
  | i :: rest =>
      let token := ldata v [0%nat; i] in
      out' <- setitem out [batch; i; token] 1 ;;
      one_hot_tokens v batch rest out'
  end.

(** Lines 115-117: the loop over [range(v.size(0))]. *)
Fixpoint one_hot_batches (v : LongTensor) (seq_length : nat)
    (batches : list nat) (out : Tensor) : result Tensor :=
  match batches with
  | [] => Ok out
  | batch :: rest =>
      out' <- one_hot_tokens v batch (seq 0 seq_length) out ;;
      one_hot_batches v seq_length rest out'
  end.

(** Lines 100-119, for [v] of the shape [(batch_size, seq_length)] of the
    docstring. *)
Definition one_hot_encoder (v : LongTensor) (vocab_size : nat)
  : result Tensor :=
  match lshape v with
  | [batch_size; seq_length] =>
      let out := zeros [batch_size; seq_length; vocab_size] in
      one_hot_batches v seq_length (seq 0 batch_size) out
  | _ => Raise IndexError
  end.

(** The one-hot encoding of the token [tok] at one position. *)
Definition one_hot (tok j : nat) : R := if (j =? tok)%nat then 1 else 0.

(** *** class Embedding *)

Record Embedding : Type := mkEmbedding {
  embed_dim : nat;
  embed : nnEmbedding
}.

Definition Embedding_init (sd : state_dict) (p : path)
    (vocab_size embed_dim : nat) : Embedding :=
  mkEmbedding embed_dim
    (nnEmbedding_init sd (p ++ [Name "embed"]) vocab_size embed_dim).

Definition Embedding_forward (m : Embedding) (x : LongTensor)
  : result Tensor :=
  out <- nnEmbedding_forward (embed m) x ;;
  permute out [1; 0; 2]%nat.

(** *** class PositionalEncoding *)

Record PositionalEncoding : Type := mkPositionalEncoding {
  pe_dropout : Dropout;
  pe : Tensor
}.

Definition PositionalEncoding_init (rng : state_dict) (p : path)
    (embed_dim : nat) (dropout : R) (max_len : nat) : PositionalEncoding :=
  mkPositionalEncoding
    (Dropout_init rng (p ++ [Name "dropout"]) dropout)
    (mkTensor [max_len; 1; embed_dim]%nat
       (fun idx =>
          match idx with
          | [position; _; j] =>
              let div_term :=
                exp (INR (2 * (j / 2)) * (- ln 10000 / INR embed_dim)) in
              if Nat.even j then sin (INR position * div_term)
              else cos (INR position * div_term)
          | _ => 0
          end)).

Definition PositionalEncoding_forward (m : PositionalEncoding) (x : Tensor)
  : result Tensor :=
  match shape x with
  | [] => Raise IndexError
  | size0 :: _ =>
      pe_slice <- slice_to (pe m) size0 ;;
      out <- add x pe_slice ;;
      Ok (Dropout_forward (pe_dropout m) 0 out)
  end.

(** *** class SelfAttention *)

Record SelfAttention : Type := mkSelfAttention {
  sa_n_heads : nat;
  sa_dim : nat;
  sa_head_dim : nat;
  sa_scale : R;
  sa_qkv : Linear;
  sa_attn_drop : Dropout;
  sa_proj : Linear;
  sa_proj_drop : Dropout
}.

Definition SelfAttention_init (sd rng : state_dict) (p : path)
    (dim n_heads : nat) (qkv_bias : bool) (attn_p proj_p : R)
  : SelfAttention :=
  let head_dim := (dim / n_heads)%nat in
  mkSelfAttention n_heads dim head_dim
    (Rpower (INR head_dim) (- (1 / 2)))
    (Linear_init sd (p ++ [Name "qkv"]) dim (dim * 3) qkv_bias)
    (Dropout_init rng (p ++ [Name "attn_drop"]) attn_p)
    (Linear_init sd (p ++ [Name "proj"]) dim dim true)
    (Dropout_init rng (p ++ [Name "proj_drop"]) proj_p).

(** Lines 239-261: up to [scores = dp.softmax(dim=-1)].  The product of the
    mask and [dp] on line 259 is computed and not bound to a name. *)
Definition SelfAttention_scores (m : SelfAttention) (x : Tensor)
    (mask : option MaskTensor)
  : result (Tensor * Tensor * Tensor * Tensor) :=
  match shape x with
  | [batch_size; n_tokens; dim] =>
      if negb (dim =? sa_dim m)%nat then Raise ValueError
      else
        qkv <- Linear_forward (sa_qkv m) x ;;
        qkv <- reshape qkv
                 [batch_size; n_tokens; 3%nat; sa_n_heads m; sa_head_dim m] ;;
        qkv <- permute qkv [2; 1; 3; 0; 4]%nat ;;
        q <- select qkv 0 ;;
        k <- select qkv 1 ;;
        v <- select qkv 2 ;;
        dp <- einsum_kabc_qdef_qabe k q ;;
        let dp := scale dp (sa_scale m) in
        _ <- match mask with
             | Some mask => einsum_xy_abcd_abxy mask dp
             | None => Ok (mkMaskTensor [] (fun _ => Finite 0))
             end ;;
        let scores := softmax dp in
        Ok (scores, q, k, v)
  | _ => Raise ValueError
  end.

(** Lines 226-270. *)
Definition SelfAttention_forward (m : SelfAttention) (x : Tensor)
    (mask : option MaskTensor)
  : result (Tensor * Tensor * Tensor * Tensor) :=
  '(scores, q, k, v) <- SelfAttention_scores m x mask ;;
  let scores := Dropout_forward (sa_attn_drop m) 0 scores in
  weighted_avg <- einsum_qabc_kdef_bqaf scores v ;;
  weighted_avg <- flatten weighted_avg 2 ;;
  x <- Linear_forward (sa_proj m) weighted_avg ;;
  let x := Dropout_forward (sa_proj_drop m) 0 x in
  Ok (x, q, k, v).

(** *** class EncoderDecoderAttention *)

Record EncoderDecoderAttention : Type := mkEncoderDecoderAttention {
  eda_n_heads : nat;
  eda_dim : nat;
  eda_head_dim : nat;
  eda_scale : R;
  eda_q_matrix : Linear;
  eda_attn_drop : Dropout;
  eda_proj : Linear;
  eda_proj_drop : Dropout
}.

Definition EncoderDecoderAttention_init (sd rng : state_dict) (p : path)
    (dim n_heads : nat) (qkv_bias : bool) (attn_p proj_p : R)
  : EncoderDecoderAttention :=
  let head_dim := (dim / n_heads)%nat in
  mkEncoderDecoderAttention n_heads dim head_dim
    (Rpower (INR head_dim) (- (1 / 2)))
    (Linear_init sd (p ++ [Name "q_matrix"]) dim dim qkv_bias)
    (Dropout_init rng (p ++ [Name "attn_drop"]) attn_p)
    (Linear_init sd (p ++ [Name "proj"]) dim dim true)
    (Dropout_init rng (p ++ [Name "proj_drop"]) proj_p).

(** Lines 302-345. *)
Definition EncoderDecoderAttention_forward (m : EncoderDecoderAttention)
    (x k v : Tensor) (mask : option MaskTensor)
  : result (Tensor * Tensor * Tensor * Tensor) :=
  match shape x with
  | [batch_size; n_tokens; dim] =>
      if negb (dim =? eda_dim m)%nat then Raise ValueError
      else
        q <- Linear_forward (eda_q_matrix m) x ;;
        q <- reshape q [batch_size; n_tokens; eda_n_heads m; eda_head_dim m] ;;
        q <- permute q [1; 2; 0; 3]%nat ;;
        dp <- einsum_abkd_abqd_abqk k q ;;
        let dp := scale dp (eda_scale m) in
        _ <- match mask with
             | Some mask => einsum_xy_abcd_abxy mask dp
             | None => Ok (mkMaskTensor [] (fun _ => Finite 0))
             end ;;
        let scores := softmax dp in
        let scores := Dropout_forward (eda_attn_drop m) 0 scores in
        weighted_avg <- einsum_abts_abse_tabe scores v ;;
        weighted_avg <- flatten weighted_avg 2 ;;
        x <- Linear_forward (eda_proj m) weighted_avg ;;
        let x := Dropout_forward (eda_proj_drop m) 0 x in
        Ok (x, q, k, v)
  | _ => Raise ValueError
  end.

(** *** class MLP *)

Record MLP : Type := mkMLP {
  fc1 : Linear;
  act : R -> R;
  fc2 : Linear;
  drop : Dropout
}.

Section Layers.

(** [nn.GELU()], entry by entry. *)
Variable GELU : R -> R.

Definition MLP_init (sd rng : state_dict) (p : path)
    (in_features hidden_features out_features : nat) (pr : R) : MLP :=
  mkMLP (Linear_init sd (p ++ [Name "fc1"]) in_features hidden_features true)
        GELU
        (Linear_init sd (p ++ [Name "fc2"]) hidden_features out_features true)
        (Dropout_init rng (p ++ [Name "drop"]) pr).

Definition MLP_forward (m : MLP) (x : Tensor) : result Tensor :=
  x <- Linear_forward (fc1 m) x ;;
  let x := mkTensor (shape x) (fun idx => act m (data x idx)) in
  let x := Dropout_forward (drop m) 0 x in
  x <- Linear_forward (fc2 m) x ;;
  let x := Dropout_forward (drop m) 1 x in
  Ok x.

(** *** class EncoderBlock *)

Record EncoderBlock : Type := mkEncoderBlock {
  enc_norm1 : LayerNorm;
  enc_attn : SelfAttention;
  enc_norm2 : LayerNorm;
  enc_mlp : MLP
}.

(** [mlp_ratio] is a float in the script; the hidden width is
    [int(dim * mlp_ratio)], here with a whole ratio. *)
Definition EncoderBlock_init (sd rng : state_dict) (p : path)
    (dim n_heads mlp_ratio : nat) (qkv_bias : bool) (pr attn_p : R)
  : EncoderBlock :=
  let hidden_features := (dim * mlp_ratio)%nat in
  mkEncoderBlock
    (LayerNorm_init sd (p ++ [Name "norm1"]) dim (1 / 1000000))
    (SelfAttention_init sd rng (p ++ [Name "attn"]) dim n_heads qkv_bias
       attn_p pr)
    (LayerNorm_init sd (p ++ [Name "norm2"]) dim (1 / 1000000))
    (MLP_init sd rng (p ++ [Name "mlp"]) dim hidden_features dim 0).

(** Lines 435-451. *)
Definition EncoderBlock_forward (m : EncoderBlock) (x : Tensor)
    (mask : option MaskTensor) : result (Tensor * Tensor * Tensor) :=
  '(attn, q, k, v) <- SelfAttention_forward (enc_attn m) x mask ;;
  s <- add attn x ;;
  attn_add_norm <- LayerNorm_forward (enc_norm1 m) s ;;
  z <- MLP_forward (enc_mlp m) attn_add_norm ;;
  s <- add z attn_add_norm ;;
  out <- LayerNorm_forward (enc_norm2 m) s ;;
  Ok (out, k, v).

(** *** class DecoderBlock *)

Record DecoderBlock : Type := mkDecoderBlock {
  dec_norm1 : LayerNorm;
  dec_self_attn : SelfAttention;
  dec_encoder_decoder_attn : EncoderDecoderAttention;
  dec_norm2 : LayerNorm;
  dec_mlp : MLP;
  dec_norm3 : LayerNorm
}.

Definition DecoderBlock_init (sd rng : state_dict) (p : path)
    (dim n_heads mlp_ratio : nat) (qkv_bias : bool) (pr attn_p : R)
  : DecoderBlock :=
  let hidden_features := (dim * mlp_ratio)%nat in
  mkDecoderBlock
    (LayerNorm_init sd (p ++ [Name "norm1"]) dim (1 / 1000000))
    (SelfAttention_init sd rng (p ++ [Name "self_attn"]) dim n_heads qkv_bias
       attn_p pr)
    (EncoderDecoderAttention_init sd rng (p ++ [Name "encoder_decoder_attn"])
       dim n_heads qkv_bias attn_p pr)
    (LayerNorm_init sd (p ++ [Name "norm2"]) dim (1 / 1000000))
    (MLP_init sd rng (p ++ [Name "mlp"]) dim hidden_features dim 0)
    (LayerNorm_init sd (p ++ [Name "norm3"]) dim (1 / 1000000)).

(** Lines 506-525. *)
Definition DecoderBlock_forward (m : DecoderBlock) (x k v : Tensor)
    (mask : option MaskTensor) : result Tensor :=
  '(attn, _, _, _) <- SelfAttention_forward (dec_self_attn m) x mask ;;
  s <- add attn x ;;
  attn_add_norm <- LayerNorm_forward (dec_norm1 m) s ;;
  '(attn, _, _, _) <-
    EncoderDecoderAttention_forward (dec_encoder_decoder_attn m)
      attn_add_norm k v mask ;;
  s <- add attn x ;;
  attn_add_norm <- LayerNorm_forward (dec_norm2 m) s ;;
  z <- MLP_forward (dec_mlp m) attn_add_norm ;;
  s <- add z attn_add_norm ;;
  out <- LayerNorm_forward (dec_norm3 m) s ;;
  Ok out.

(** *** class Transformer *)

Record Transformer : Type := mkTransformer {
  embedding : Embedding;
  pos_encoding : PositionalEncoding;
  pos_drop : Dropout;
  encoder_blocks : list EncoderBlock;
  decoder_blocks : list DecoderBlock;
  src_masking : bool;
  tgt_masking : bool;
  head : Linear
}.

(** Lines 548-601.  [Embedding] and [PositionalEncoding] are built with
    their default width 512, dropout 0.1 and [max_len] 5000, whatever
    [embed_dim] is. *)
Definition Transformer_init (sd rng : state_dict)
    (vocab_size embed_dim encoder_depth decoder_depth n_heads mlp_ratio : nat)
    (qkv_bias : bool) (pr attn_p : R) (src_masking tgt_masking : bool)
  : Transformer :=
  mkTransformer
    (Embedding_init sd [Name "embedding"] vocab_size 512)
    (PositionalEncoding_init rng [Name "pos_encoding"] 512 (1 / 10) 5000)
    (Dropout_init rng [Name "pos_drop"] pr)
    (map (fun i => EncoderBlock_init sd rng [Name "encoder_blocks"; Idx i]
                     embed_dim n_heads mlp_ratio qkv_bias pr attn_p)
         (seq 0 encoder_depth))
    (map (fun i => DecoderBlock_init sd rng [Name "decoder_blocks"; Idx i]
                     embed_dim n_heads mlp_ratio qkv_bias pr attn_p)
         (seq 0 decoder_depth))
    src_masking tgt_masking
    (Linear_init sd [Name "head"] embed_dim vocab_size true).

(** Lines 603-605: [-inf] above the diagonal, 0 on it and below. *)
Definition generate_mask (sz : nat) : MaskTensor :=
  mkMaskTensor [sz; sz]
    (fun idx =>
       match idx with
       | [i; j] => if (i + 1 <=? j)%nat then fmul (Finite 1) NegInf
                   else Finite 0
       | _ => Finite 0
       end).

(** Lines 633-634; [k] and [v] are bound by the first block. *)
Fixpoint run_encoder (blocks : list EncoderBlock) (src : Tensor)
    (kv : option (Tensor * Tensor)) (mask : option MaskTensor)
  : result (Tensor * option (Tensor * Tensor)) :=
  match blocks with
  | [] => Ok (src, kv)
  | block :: rest =>
      '(src, k, v) <- EncoderBlock_forward block src mask ;;
      run_encoder rest src (Some (k, v)) mask
  end.

(** Lines 640-641. *)
Fixpoint run_decoder (blocks : list DecoderBlock) (tgt : Tensor)
    (kv : option (Tensor * Tensor)) (mask : option MaskTensor)
  : result Tensor :=
  match blocks with
  | [] => Ok tgt
  | block :: rest =>
      match kv with
      | None => Raise NameError
      | Some (k, v) =>
          tgt <- DecoderBlock_forward block tgt k v mask ;;
          run_decoder rest tgt kv mask
      end
  end.

Definition mask_for (masking : bool) (x : LongTensor)
  : result (option MaskTensor) :=
  if masking then
    match lshape x with
    | _ :: size1 :: _ => Ok (Some (generate_mask size1))
    | _ => Raise IndexError
    end
  else Ok None.

(** Lines 607-647. *)
Definition Transformer_forward (m : Transformer) (src tgt : LongTensor)
  : result Tensor :=
  src_mask <- mask_for (src_masking m) src ;;
  tgt_mask <- mask_for (tgt_masking m) tgt ;;
  src_embed <- Embedding_forward (embedding m) src ;;
  src <- PositionalEncoding_forward (pos_encoding m) src_embed ;;
  let src := Dropout_forward (pos_drop m) 0 src in
  '(src, kv) <- run_encoder (encoder_blocks m) src None src_mask ;;
  tgt_embed <- Embedding_forward (embedding m) tgt ;;
  tgt <- PositionalEncoding_forward (pos_encoding m) tgt_embed ;;
  let tgt := Dropout_forward (pos_drop m) 1 tgt in
  tgt <- run_decoder (decoder_blocks m) tgt kv tgt_mask ;;
  out <- Linear_forward (head m) tgt ;;
  let out := softmax out in
  permute out [1; 0; 2]%nat.

(** Lines 653-665: the model of the script. *)
Definition model (sd rng : state_dict) (vocab_size : nat) : Transformer :=
  Transformer_init sd rng vocab_size 512 8 8 8 4 true 0 0 false true.

End Layers.

(** The entry that setting the indices [upd] to 1 leaves at [idx]. *)
Definition updated (upd : list (list nat)) (old : list nat -> R)
    (idx : list nat) : R :=
  if existsb (list_eqb idx) upd then 1 else old idx.

(** A batch of two rows that differ: [[1, 0], [0, 1]]. *)
Definition two_rows : LongTensor :=
  mkLongTensor [2; 2]%nat
    (fun idx => match idx with
                | [0; 0] | [1; 1] => 1
                | _ => 0
                end)%nat.


(** Tokens below the size of the vocabulary. *)
Definition valid_tokens (x : LongTensor) (b s vocab_size : nat) : Prop :=
  forall i j, (i < b)%nat -> (j < s)%nat ->
              (ldata x [i; j] < vocab_size)%nat.

(** A state in which every parameter and every dropout factor is 0, and a
    batch that holds one token everywhere. *)
Definition zero_state : state_dict := fun _ _ => 0.

Definition constant_batch (sh : list nat) (tok : nat) : LongTensor :=
  mkLongTensor sh (fun _ => tok).

End MolTransformer.

(** ** scripts/13_mol_transformer.py: the training loop and the figure *)

Module Training.

(** The values that the loss bookkeeping holds: the integer [0] that
    [batch_loss] starts from, a Python float, a 0-dimensional tensor and a
    0-dimensional numpy array.  The number inside is an exact rational
    standing for the float. *)
Inductive pyval : Type :=
| PyInt (z : Z)
| PyFloat (q : Q)
| TensorV (q : Q)
| NDArray (q : Q).

Definition number (x : pyval) : Q :=
  match x with
  | PyInt z => inject_Z z
  | PyFloat q | TensorV q | NDArray q => q
  end.

(** [batch_loss += loss.data] with [loss.data] a tensor: the sum is a
    tensor. *)
Definition add_loss (batch_loss : pyval) (loss : Q) : pyval :=
  TensorV (number batch_loss + loss).

(** [batch_loss / n] for an integer [n]: a tensor stays a tensor; an integer
    divided by the integer 0 is a [ZeroDivisionError]. *)
Definition py_div (x : pyval) (n : nat) : result pyval :=
  match x with
  | PyInt z =>
      if (n =? 0)%nat then Raise ZeroDivisionError
      else Ok (PyFloat (inject_Z z / inject_Z (Z.of_nat n)))
  | PyFloat q =>
      if (n =? 0)%nat then Raise ZeroDivisionError
      else Ok (PyFloat (q / inject_Z (Z.of_nat n)))
  | TensorV q => Ok (TensorV (q / inject_Z (Z.of_nat n)))
  | NDArray q => Ok (NDArray (q / inject_Z (Z.of_nat n)))
  end.

(** A line of [summary]. *)
Inductive line : Type :=
| EpochLine (epoch : nat) (train test : pyval)
| EarlyStopLine (epoch : nat).

Definition num_epochs : nat := 1000.

Section Loop.

(** The parameters of the model, the state of the optimizer, the state of
    the [EarlyStopping] object and a batch of a loader. *)
Variables params opt_state es_state batch : Type.

(** Lines 681-692 for one batch: forward pass, loss, backward pass and
    optimizer step; the result holds [loss.data]. *)
Variable train_step : params -> opt_state -> batch -> params * opt_state * Q.

(** Lines 700-706 for one batch. *)
Variable eval_step : params -> batch -> Q.

(** [invoke(early_stopping, loss, model, implement=True)] of
    [functions/pytorchtools.py], which is not among the sources: whether to
    stop, and the new state of [early_stopping].  It is taken not to change
    the parameters of the model nor the file [13_mol_transformer]. *)
Variable invoke : es_state -> pyval -> params -> bool * es_state.

(** The batches that the shuffling loaders yield in each epoch. *)
Variables train_loader test_loader : nat -> list batch.

Record state : Type := mkState {
  model : params;
  optimizer : opt_state;
  early_stopping : es_state;
  (** the file [results/13_mol_transformer], if it exists *)
  checkpoint : option params;
  (** the file [results/13_summary.txt], if it exists *)
  summary_file : option (list line);
  train_loss : list pyval;
  test_loss : list pyval;
  summary : list line
}.

(** Lines 678-692: the pass over the training batches. *)
Fixpoint train_batches (bs : list batch) (m : params) (o : opt_state)
    (batch_loss : pyval) : params * opt_state * pyval :=
  match bs with
  | [] => (m, o, batch_loss)
  | b :: rest =>
      let '(m', o', loss) := train_step m o b in
      train_batches rest m' o' (add_loss batch_loss loss)
  end.

(** The values of [loss.data] along the pass over the training batches. *)
Fixpoint pass_losses (bs : list batch) (m : params) (o : opt_state)
  : list Q :=
  match bs with
  | [] => []
  | b :: rest =>
      let '(m', o', loss) := train_step m o b in
      loss :: pass_losses rest m' o'
  end.

(** Lines 696-706: the pass over the test batches. *)
Fixpoint test_batches (bs : list batch) (m : params) (batch_loss : pyval)
  : pyval :=
  match bs with
  | [] => batch_loss
  | b :: rest => test_batches rest m (add_loss batch_loss (eval_step m b))
  end.

Inductive flow : Type :=
| Continue (st : state)
| Break (st : state)
| Raised (e : exn).

(** Lines 678-733: the body of the loop for one epoch. *)
Definition epoch_body (epoch : nat) (st : state) : flow :=
  let '(m, o, batch_loss) :=
    train_batches (train_loader epoch) (model st) (optimizer st) (PyInt 0) in
  match py_div batch_loss (List.length (train_loader epoch)) with
  | Raise e => Raised e
  | Ok tl =>
      let train_loss := train_loss st ++ [tl] in
      let batch_loss := test_batches (test_loader epoch) m (PyInt 0) in
      match py_div batch_loss (List.length (test_loader epoch)) with
      | Raise e => Raised e
      | Ok vl =>
          let test_loss := test_loss st ++ [vl] in
          let summary := summary st ++ [EpochLine epoch tl vl] in
          let '(stop, es) := invoke (early_stopping st) vl m in
          if stop then
            match checkpoint st with
            | None => Raised FileNotFoundError
            | Some saved =>
                Break (mkState saved o es (checkpoint st) (summary_file st)
                         train_loss test_loss
                         (summary ++ [EarlyStopLine epoch]))
            end
          else
            Continue (mkState m o es (Some m) (Some summary)
                        train_loss test_loss summary)
      end
  end.

Inductive outcome : Type :=
| Finished (st : state)
| Stopped (epoch : nat) (st : state)
| Crashed (epoch : nat) (e : exn).

(** Line 677: [for epoch in range(num_epochs)]. *)
Fixpoint run_epochs (epochs : list nat) (st : state) : outcome :=
  match epochs with
  | [] => Finished st
  | epoch :: rest =>
      match epoch_body epoch st with
      | Continue st' => run_epochs rest st'
      | Break st' => Stopped epoch st'
      | Raised e => Crashed epoch e
      end
  end.

(** Lines 674-677: the state in which the loop starts. *)
Definition initial_state (m : params) (o : opt_state) (es : es_state)
    (ckpt : option params) (file : option (list line)) : state :=
  mkState m o es ckpt file [] [] [].

Definition training_loop (st : state) : outcome :=
  run_epochs (seq 0 num_epochs) st.

(** The epochs of a list all run to their end, from [st] to [st']. *)
Inductive continues : list nat -> state -> state -> Prop :=
| continues_nil st : continues [] st st
| continues_cons epoch rest st st1 st2 :
    epoch_body epoch st = Continue st1 ->
    continues rest st1 st2 ->
    continues (epoch :: rest) st st2.

(** What one epoch computes before it asks [invoke]: the trained
    parameters, the state of the optimizer and the two averages. *)
Definition epoch_losses (epoch : nat) (st : state)
  : result (params * opt_state * pyval * pyval) :=
  let '(m, o, batch_loss) :=
    train_batches (train_loader epoch) (model st) (optimizer st) (PyInt 0) in
  tl <- py_div batch_loss (List.length (train_loader epoch)) ;;
  vl <- py_div (test_batches (test_loader epoch) m (PyInt 0))
               (List.length (test_loader epoch)) ;;
  Ok (m, o, tl, vl).

(** [invoke] asks to stop in epoch [epoch] entered in state [st]. *)
Definition triggers (epoch : nat) (st : state) : Prop :=
  exists m o tl vl,
    epoch_losses epoch st = Ok (m, o, tl, vl) /\
    fst (invoke (early_stopping st) vl m) = true.

End Loop.

Arguments mkState {params opt_state es_state}.
Arguments model {params opt_state es_state}.
Arguments optimizer {params opt_state es_state}.
Arguments early_stopping {params opt_state es_state}.
Arguments checkpoint {params opt_state es_state}.
Arguments summary_file {params opt_state es_state}.
Arguments train_loss {params opt_state es_state}.
Arguments test_loss {params opt_state es_state}.
Arguments summary {params opt_state es_state}.
Arguments Continue {params opt_state es_state}.
Arguments Break {params opt_state es_state}.
Arguments Raised {params opt_state es_state}.
Arguments Finished {params opt_state es_state}.
Arguments Stopped {params opt_state es_state}.
Arguments Crashed {params opt_state es_state}.
Arguments train_batches {params opt_state batch}.
Arguments pass_losses {params opt_state batch}.
Arguments test_batches {params batch}.
Arguments epoch_body {params opt_state es_state batch}.
Arguments epoch_losses {params opt_state es_state batch}.
Arguments run_epochs {params opt_state es_state batch}.
Arguments continues {params opt_state es_state batch}.
Arguments triggers {params opt_state es_state batch}.
Arguments training_loop {params opt_state es_state batch}.
Arguments initial_state {params opt_state es_state}.

Definition is_tensor (x : pyval) : Prop := exists q, x = TensorV q.

(** *** Lines 735-756: the figure *)

(** Lines 754-755, one element:
    [x.detach().cpu().numpy() if not type(x) == float
     else np.array(x, dtype='f')]. *)
Definition to_numpy (x : pyval) : result pyval :=
  match x with
  | PyFloat q => Ok (NDArray q)
  | TensorV q => Ok (NDArray q)
  | PyInt _ => Raise AttributeError
  | NDArray _ => Raise AttributeError
  end.

Record figure : Type := mkFigure {
  training_curve : list (nat * pyval);
  test_curve : list (nat * pyval);
  minimum_line : nat
}.

(** [l.index(min(l))] for a non-empty list: the position of the first
    smallest element. *)
Fixpoint argmin_from (l : list pyval) (pos best_pos : nat) (best : Q) : nat :=
  match l with
  | [] => best_pos
  | x :: rest =>
      if Qlt_le_dec (number x) best
      then argmin_from rest (S pos) pos (number x)
      else argmin_from rest (S pos) best_pos best
  end.

(** Lines 738-751, [burn_in] being 20; [min] of an empty list is a
    [ValueError]. *)
Definition plot_losses (train_loss test_loss : list pyval) (burn_in : nat)
  : result figure :=
  let curve l := combine (seq burn_in (List.length l - burn_in))
                         (skipn burn_in l) in
  match test_loss with
  | [] => Raise ValueError
  | x :: rest =>
      let minposs := (argmin_from rest 1 0 (number x) + 1)%nat in
      Ok (mkFigure (curve train_loss) (curve test_loss) minposs)
  end.

(** Lines 754-756. *)
Definition convert_and_plot (train_loss test_loss : list pyval)
  : result figure :=
  train_loss <- mapM to_numpy train_loss ;;
  test_loss <- mapM to_numpy train_loss ;;
  plot_losses train_loss test_loss 20.

(** *** A small run: a batch is the loss it yields; each epoch has the
    training batches 1 and 3 and the test batches 2 and 6; the parameters
    count the training steps; [invoke] asks to stop in its fourth call. *)
Definition demo_train_step (m o : nat) (b : Q) : nat * nat * Q := (S m, o, b).
Definition demo_eval_step (m : nat) (b : Q) : Q := b.
Definition demo_invoke (es : nat) (loss : pyval) (m : nat) : bool * nat :=
  ((3 <=? es)%nat, S es).
Definition demo_train_loader (epoch : nat) : list Q := [1; 3]%Q.
Definition demo_test_loader (epoch : nat) : list Q := [2; 6]%Q.
Definition demo_start : state nat nat nat :=
  initial_state 0%nat 0%nat 0%nat None None.
Definition demo_run : outcome nat nat nat :=
  training_loop demo_train_step demo_eval_step demo_invoke demo_train_loader
    demo_test_loader demo_start.

End Training.
(** * Properties *)

(** ** The data-sampling script: frames and their index *)

Section FrameFacts.
Import DataSampling.

Lemma bind_ok {A B : Type} (m : result A) (k : A -> result B) (b : B) :
  bind m k = Ok b -> exists a, m = Ok a /\ k a = Ok b.
Proof.
  destruct m as [a|e]; simpl; intros H; [exists a; auto | discriminate].
Qed.

Lemma mem_nat_In (n : nat) (l : list nat) : mem_nat n l = true <-> In n l.
Proof.
  unfold mem_nat. rewrite existsb_exists. split.
  - intros [x [Hx Hn]]. apply Nat.eqb_eq in Hn. now subst.
  - intros H. exists n. split; [assumption | apply Nat.eqb_refl].
Qed.

Lemma read_csv_from_index (lines : list (string * string)) :
  forall i, map index (read_csv_from i lines) = seq i (List.length lines).
Proof.
  induction lines as [|[id ec] t IH]; intros i; simpl; [reflexivity|].
  now rewrite IH.
Qed.

Lemma read_csv_NoDup (lines : list (string * string)) :
  NoDup (map index (read_csv lines)).
Proof.
  unfold read_csv. rewrite read_csv_from_index. apply seq_NoDup.
Qed.

Lemma filter_keeps_unique_keys {V K : Type} (key : V -> K) (keep : V -> bool)
    (rows : list V) (Hu : NoDup (map key rows)) :
  NoDup (map key (filter keep rows)).
Proof.
  induction rows as [|r rest IH]; simpl in *; [constructor|].
  apply NoDup_cons_iff in Hu as [Hfresh Hrest].
  destruct (keep r); simpl; [|now apply IH].
  apply NoDup_cons; [|now apply IH].
  rewrite in_map_iff. intros [r' [Hk Hin]]. apply Hfresh.
  rewrite in_map_iff. exists r'. rewrite filter_In in Hin. tauto.
Qed.

(** In a frame with a unique index, a row is determined by its label. *)
Lemma index_inj (df : DataFrame) (r r' : row) :
  NoDup (map index df) -> In r df -> In r' df -> index r = index r' -> r = r'.
Proof.
  induction df as [|a t IH]; simpl; intros Hnd Hr Hr' He; [contradiction|].
  inversion Hnd as [|? ? Hnin Hnd']; subst.
  destruct Hr as [->|Hr], Hr' as [->|Hr']; auto.
  - exfalso. apply Hnin. rewrite He. now apply in_map.
  - exfalso. apply Hnin. rewrite <- He. now apply in_map.
Qed.

Lemma drop_drop (l1 l2 : list nat) (df : DataFrame) :
  drop l2 (drop l1 df) = drop (l1 ++ l2) df.
Proof.
  unfold drop. induction df as [|a t IH]; simpl; [reflexivity|].
  unfold mem_nat in *. rewrite existsb_app.
  destruct (existsb (Nat.eqb (index a)) l1); simpl.
  - apply IH.
  - destruct (existsb (Nat.eqb (index a)) l2); simpl; now rewrite IH.
Qed.

Lemma remove_missing_spec (point_clouds : list string) (rows : list row) :
  forall (ec_data : DataFrame) (pcs : list string) (dropped : list nat)
         (orig : DataFrame),
    ec_data = drop dropped orig ->
    remove_missing point_clouds rows ec_data pcs =
    (drop (dropped ++
           map index (filter (fun r => negb (keeps point_clouds r)) rows)) orig,
     pcs ++ map (fun r => (col0 r ++ ".txt")%string)
                (filter (keeps point_clouds) rows)).
Proof.
  induction rows as [|r rest IH]; intros ec_data pcs dropped orig He; simpl.
  - subst. now rewrite !app_nil_r.
  - change (mem_string (col0 r ++ ".txt") point_clouds)
      with (keeps point_clouds r).
    destruct (keeps point_clouds r) eqn:Hm; simpl.
    + rewrite (IH ec_data (pcs ++ [(col0 r ++ ".txt")%string]) dropped orig He).
      now rewrite <- app_assoc.
    + rewrite (IH (drop [index r] ec_data) pcs (dropped ++ [index r]) orig).
      * now rewrite <- app_assoc.
      * subst. apply drop_drop.
Qed.

Lemma drop_unkept (point_clouds : list string) (df : DataFrame) :
  NoDup (map index df) ->
  drop (map index (filter (fun r => negb (keeps point_clouds r)) df)) df =
  filter (keeps point_clouds) df.
Proof.
  intros Hnd. unfold drop. apply filter_ext_in. intros r Hr.
  destruct (keeps point_clouds r) eqn:Hk.
  - apply negb_true_iff. apply not_true_is_false. intros Hm.
    apply mem_nat_In, in_map_iff in Hm as [r' [He Hr']].
    apply filter_In in Hr' as [Hr' Hk'].
    assert (r' = r) by (eapply index_inj; eauto). subst.
    rewrite Hk in Hk'. discriminate.
  - apply negb_false_iff, mem_nat_In, in_map_iff. exists r. split; [reflexivity|].
    apply filter_In. rewrite Hk. auto.
Qed.

Lemma set_protein_map (df : DataFrame) :
  set_protein df (map (fun r => (col0 r ++ ".txt")%string) df) =
  Ok (map add_protein df).
Proof.
  induction df as [|r t IH]; simpl; [reflexivity|]. now rewrite IH.
Qed.

(** The frame of line 37 is the frame read from the file without the rows
    that have no point cloud; the assignment of line 37 never raises. *)
Lemma with_point_cloud_spec (point_clouds : list string)
    (lines : list (string * string)) :
  with_point_cloud point_clouds lines =
  Ok (map add_protein (filter (keeps point_clouds) (read_csv lines))).
Proof.
  unfold with_point_cloud.
  rewrite (remove_missing_spec point_clouds (read_csv lines) (read_csv lines)
             [] [] (read_csv lines)).
  - simpl. rewrite drop_unkept by apply read_csv_NoDup. apply set_protein_map.
  - unfold drop. simpl. clear. induction (read_csv lines); simpl; congruence.
Qed.

Lemma with_point_cloud_NoDup (point_clouds : list string)
    (lines : list (string * string)) (ec_data : DataFrame) :
  with_point_cloud point_clouds lines = Ok ec_data ->
  NoDup (map index ec_data).
Proof.
  rewrite with_point_cloud_spec. intros [= <-].
  rewrite map_map. simpl. apply filter_keeps_unique_keys, read_csv_NoDup.
Qed.

Lemma filter_under {A : Type} (p q : A -> bool) (b : bool) (l : list A) :
  (forall x, In x l -> p x = true -> q x = b) ->
  filter p (filter q l) = if b then filter p l else [].
Proof.
  induction l as [|a t IH]; simpl; intros H.
  - now destruct b.
  - assert (Ht : forall x, In x t -> p x = true -> q x = b) by auto.
    specialize (IH Ht). destruct (p a) eqn:Hp.
    + rewrite (H a) by auto. destruct b; simpl; [rewrite Hp, IH|]; auto.
    + destruct (q a); simpl; rewrite ?Hp; exact IH.
Qed.

(** The rows of one label that survive the low-count filter. *)
Lemma filter_low_counts_label (label : string) (df : DataFrame) :
  filter (fun r => String.eqb (EC r) label) (filter_low_counts df) =
  if MIN_SAMPLES <=? count_EC label df
  then filter (fun r => String.eqb (EC r) label) df
  else [].
Proof.
  unfold filter_low_counts. apply filter_under.
  intros r _ He. apply String.eqb_eq in He. now rewrite He.
Qed.

Lemma count_EC_filter_low_counts (label : string) (df : DataFrame) :
  count_EC label (filter_low_counts df) =
  if MIN_SAMPLES <=? count_EC label df then count_EC label df else 0.
Proof.
  unfold count_EC at 1. rewrite filter_low_counts_label.
  now destruct (MIN_SAMPLES <=? count_EC label df).
Qed.

Lemma balanced_data_set_spec (point_clouds : list string)
    (lines : list (string * string)) :
  exists ec_data,
    with_point_cloud point_clouds lines = Ok ec_data /\
    balanced_data_set point_clouds lines = Ok (filter_low_counts ec_data) /\
    NoDup (map index ec_data).
Proof.
  unfold balanced_data_set.
  destruct (with_point_cloud point_clouds lines) as [ec_data|e] eqn:He.
  - exists ec_data. repeat split. eapply with_point_cloud_NoDup; eauto.
  - rewrite with_point_cloud_spec in He. discriminate.
Qed.

End FrameFacts.

(** ** The low-count filter *)

Section Balancing.
Import DataSampling.

(** C2: every class that is present in the balanced frame has at least
    [MIN_SAMPLES] rows in it, and every row of the frame the filter is applied
    to (the frame of line 37) whose class has at least [MIN_SAMPLES] rows is
    in the balanced frame. *)
Theorem balanced_keeps_frequent_classes (point_clouds : list string)
    (lines : list (string * string)) :
  exists ec_data bal,
    with_point_cloud point_clouds lines = Ok ec_data /\
    balanced_data_set point_clouds lines = Ok bal /\
    (forall r, In r bal -> MIN_SAMPLES <= count_EC (EC r) bal) /\
    (forall r, In r ec_data -> MIN_SAMPLES <= count_EC (EC r) ec_data ->
               In r bal).
Proof.
  destruct (balanced_data_set_spec point_clouds lines) as [ec_data [H1 [H2 _]]].
  exists ec_data, (filter_low_counts ec_data). repeat split; auto.
  - intros r Hr. rewrite count_EC_filter_low_counts.
    apply filter_In in Hr as [_ Hr]. rewrite Hr. now apply Nat.leb_le.
  - intros r Hr Hc. apply filter_In. split; [assumption|]. now apply Nat.leb_le.
Qed.

(** C10: the balanced frame has no upper bound on a class: [MAX_SAMPLES] is
    not applied, and a class with more than [MAX_SAMPLES] rows keeps all of
    its rows, in their order. *)
Theorem no_class_is_capped (point_clouds : list string)
    (lines : list (string * string)) :
  exists ec_data bal,
    with_point_cloud point_clouds lines = Ok ec_data /\
    balanced_data_set point_clouds lines = Ok bal /\
    forall label,
      MAX_SAMPLES < count_EC label ec_data ->
      filter (fun r => String.eqb (EC r) label) bal =
      filter (fun r => String.eqb (EC r) label) ec_data /\
      count_EC label bal = count_EC label ec_data.
Proof.
  destruct (balanced_data_set_spec point_clouds lines) as [ec_data [H1 [H2 _]]].
  exists ec_data, (filter_low_counts ec_data). repeat split; auto.
  - rewrite filter_low_counts_label.
    replace (MIN_SAMPLES <=? count_EC label ec_data) with true; [reflexivity|].
    symmetry. apply Nat.leb_le. unfold MAX_SAMPLES, MIN_SAMPLES in *. lia.
  - rewrite count_EC_filter_low_counts.
    replace (MIN_SAMPLES <=? count_EC label ec_data) with true; [reflexivity|].
    symmetry. apply Nat.leb_le. unfold MAX_SAMPLES, MIN_SAMPLES in *. lia.
Qed.

Lemma filter_all {A : Type} (p : A -> bool) (l : list A) :
  (forall x, In x l -> p x = true) -> filter p l = l.
Proof.
  induction l as [|a t IH]; simpl; intros H; [reflexivity|].
  rewrite (H a) by auto. f_equal. auto.
Qed.

(** Lines 25-37: the frame of line 37 holds the rows of the file whose point
    cloud [<column 0>.txt] is in the folder, in file order and under the
    index labels of [read_csv]; its ['protein'] column is that file name. The
    assignment of the column never raises. *)
Theorem rows_without_point_cloud_are_dropped (point_clouds : list string)
    (lines : list (string * string)) :
  exists ec_data,
    with_point_cloud point_clouds lines = Ok ec_data /\
    map (fun r => (index r, xy r)) ec_data =
    map (fun r => (index r, xy r))
      (filter (fun r => mem_string (col0 r ++ ".txt")%string point_clouds)
         (read_csv lines)) /\
    (forall r, In r ec_data ->
       protein r = (col0 r ++ ".txt")%string /\ In (protein r) point_clouds).
Proof.
  eexists. split; [apply with_point_cloud_spec|]. split.
  - rewrite map_map. reflexivity.
  - intros r Hr. apply in_map_iff in Hr as [r0 [<- Hr0]].
    apply filter_In in Hr0 as [_ K]. simpl. split; [reflexivity|].
    unfold keeps, mem_string in K. apply existsb_exists in K as [y [Hy E]].
    apply String.eqb_eq in E. now subst y.
Qed.

(** Line 40: a class with fewer than [MIN_SAMPLES] rows in the frame of line
    37 has no row in the balanced frame. *)
Theorem rare_classes_are_removed (point_clouds : list string)
    (lines : list (string * string)) :
  exists ec_data bal,
    with_point_cloud point_clouds lines = Ok ec_data /\
    balanced_data_set point_clouds lines = Ok bal /\
    forall label,
      count_EC label ec_data < MIN_SAMPLES ->
      count_EC label bal = 0 /\ forall r, In r bal -> EC r <> label.
Proof.
  destruct (balanced_data_set_spec point_clouds lines) as [ec_data [H1 [H2 _]]].
  exists ec_data, (filter_low_counts ec_data). repeat split; auto.
  - rewrite count_EC_filter_low_counts.
    destruct (Nat.leb_spec MIN_SAMPLES (count_EC label ec_data)); [lia|reflexivity].
  - intros r Hr E. apply filter_In in Hr as [_ Hr]. apply Nat.leb_le in Hr.
    rewrite E in Hr. lia.
Qed.

(** Line 40 applied to its own result removes nothing more: the classes that
    are left all have [MIN_SAMPLES] rows. *)
Theorem filter_low_counts_idempotent (df : DataFrame) :
  filter_low_counts (filter_low_counts df) = filter_low_counts df.
Proof.
  unfold filter_low_counts at 1. apply filter_all. intros r Hr.
  rewrite count_EC_filter_low_counts.
  apply filter_In in Hr as [_ Hr]. now rewrite Hr.
Qed.

Lemma rare_classes_are_removed_witness :
  balanced_data_set ["P12345.txt"%string] (one_class 9) = Ok [].
Proof.
  destruct (rare_classes_are_removed ["P12345.txt"%string] (one_class 9))
    as [ec_data [bal [H1 [H2 H3]]]].
  destruct (H3 "1.1.1.1"%string) as [Hc _].
  - vm_compute in H1. injection H1 as <-. vm_compute. repeat constructor.
  - rewrite H2. vm_compute in H2. injection H2 as <-. reflexivity.
Defined.

Lemma no_class_is_capped_witness :
  exists bal,
    balanced_data_set ["P12345.txt"%string] (one_class 101) = Ok bal /\
    count_EC "1.1.1.1" bal = 101.
Proof.
  destruct (no_class_is_capped ["P12345.txt"%string] (one_class 101))
    as [ec_data [bal [H1 [H2 H3]]]].
  exists bal. split; [exact H2|].
  destruct (H3 "1.1.1.1"%string) as [_ Hc].
  - vm_compute in H1. injection H1 as <-. vm_compute. apply le_n.
  - rewrite Hc. vm_compute in H1. injection H1 as <-. reflexivity.
Defined.

Lemma balanced_keeps_frequent_classes_witness :
  exists bal,
    balanced_data_set ["P12345.txt"%string] (one_class 10) = Ok bal /\
    List.length bal = 10.
Proof.
  destruct (balanced_keeps_frequent_classes ["P12345.txt"%string] (one_class 10))
    as [ec_data [bal [H1 [H2 [H3 H4]]]]].
  exists bal. split; [exact H2|].
  vm_compute in H2. injection H2 as <-. reflexivity.
Defined.

End Balancing.

(** ** The split into train, test and valid *)

Section SplitFacts.
Import DataSampling.

Lemma take_ok (df : DataFrame) (locs : list nat) :
  Forall (fun i => i < List.length df) locs ->
  exists s, take df locs = Ok s /\
            Forall2 (fun i r => nth_error df i = Some r) locs s.
Proof.
  unfold take. induction 1 as [|i t Hi Ht [s [Hs Hf]]]; simpl.
  - exists []. split; [reflexivity | constructor].
  - destruct (nth_error df i) as [r|] eqn:Hr.
    + exists (r :: s). rewrite Hs. simpl. split; [reflexivity|].
      now constructor.
    + apply nth_error_None in Hr. lia.
Qed.

Lemma taken_rows (df : DataFrame) (locs : list nat) (s : DataFrame) :
  NoDup (map index df) -> NoDup locs ->
  Forall2 (fun i r => nth_error df i = Some r) locs s ->
  NoDup (map index s) /\ incl s df /\ List.length s = List.length locs.
Proof.
  intros Hdf Hlocs Hf. revert Hlocs.
  induction Hf as [|i r locs s Hr Hf IH]; intros Hlocs; simpl.
  - repeat split; [constructor | intros x []].
  - inversion Hlocs as [|? ? Hni Hnd]; subst.
    destruct (IH Hnd) as [IH1 [IH2 IH3]]. repeat split.
    + constructor; [|assumption]. intros Hin.
      apply in_map_iff in Hin as [r' [He Hin]].
      apply Hni. clear IH IH1 IH2 IH3 Hnd Hni Hlocs.
      induction Hf as [|j r'' locs s Hj Hf IHf]; [contradiction|].
      destruct Hin as [->|Hin]; [left | right; auto].
      apply (proj1 (NoDup_nth_error (map index df))); auto.
      * rewrite length_map. apply nth_error_Some. congruence.
      * rewrite !nth_error_map, Hj, Hr. simpl. congruence.
    + intros x [<-|Hx]; [eapply nth_error_In; eauto | auto].
    + now rewrite IH3.
Qed.

Lemma filter_split {A : Type} (p : A -> bool) (l : list A) :
  Permutation (filter (fun x => negb (p x)) l ++ filter p l) l.
Proof.
  induction l as [|a t IH]; simpl; [constructor|].
  destruct (p a); simpl.
  - apply Permutation_sym, Permutation_cons_app, Permutation_sym, IH.
  - now constructor.
Qed.

(** Dropping the labels of a part of the frame leaves the other rows. *)
Lemma drop_part (df s : DataFrame) :
  NoDup (map index df) -> NoDup (map index s) -> incl s df ->
  Permutation (drop (map index s) df ++ s) df.
Proof.
  intros Hdf Hs Hi.
  rewrite <- (filter_split (fun r => mem_nat (index r) (map index s)) df) at 2.
  apply Permutation_app_head.
  apply NoDup_Permutation.
  - eapply NoDup_map_inv; eauto.
  - apply NoDup_filter. eapply NoDup_map_inv; eauto.
  - intros r. rewrite filter_In, mem_nat_In, in_map_iff. split.
    + intros Hr. split; [auto|]. now exists r.
    + intros [Hr [r' [He Hr']]].
      assert (r' = r) by (apply (index_inj df); auto). now subst.
Qed.

Lemma drop_NoDup (labels : list nat) (df : DataFrame) :
  NoDup (map index df) -> NoDup (map index (drop labels df)).
Proof. apply filter_keeps_unique_keys. Qed.

Lemma drop_incl (labels : list nat) (df : DataFrame) : incl (drop labels df) df.
Proof. intros r Hr. apply filter_In in Hr. tauto. Qed.

Lemma py_round_le (f : frac) (n : nat) :
  0 < fden f -> fnum f <= fden f -> py_round f n <= n.
Proof.
  intros Hd Hn. unfold py_round.
  pose proof (Nat.div_mod_eq (fnum f * n) (fden f)) as E.
  pose proof (Nat.mod_upper_bound (fnum f * n) (fden f)) as U.
  set (q := fnum f * n / fden f) in *. set (r := (fnum f * n) mod fden f) in *.
  assert (Hq : q <= n).
  { apply Nat.Div0.div_le_upper_bound. nia. }
  destruct (2 * r <? fden f) eqn:H1; [assumption|].
  apply Nat.ltb_ge in H1.
  assert (q + 1 <= n) by nia.
  destruct (fden f <? 2 * r); [assumption|]. now destruct (Nat.even q).
Qed.

Lemma unique_In (x : string) (l : list string) : In x (unique l) <-> In x l.
Proof.
  induction l as [|a t IH]; simpl; [tauto|].
  rewrite filter_In, IH, negb_true_iff, String.eqb_neq.
  destruct (String.eqb_spec a x); [subst|]; intuition congruence.
Qed.

Lemma unique_NoDup (l : list string) : NoDup (unique l).
Proof.
  induction l as [|a t IH]; simpl; constructor.
  - rewrite filter_In, String.eqb_refl. simpl. intuition discriminate.
  - now apply NoDup_filter.
Qed.

Lemma filter_or_perm {A : Type} (p q : A -> bool) (l : list A) :
  (forall x, In x l -> p x = true -> q x = false) ->
  Permutation (filter p l ++ filter q l) (filter (fun x => p x || q x) l).
Proof.
  induction l as [|a t IH]; simpl; intros H; [constructor|].
  assert (Ht : forall x, In x t -> p x = true -> q x = false) by auto.
  specialize (IH Ht). destruct (p a) eqn:Hp; simpl.
  - rewrite (H a) by auto. now constructor.
  - destruct (q a); [|exact IH].
    apply Permutation_sym, Permutation_cons_app, Permutation_sym, IH.
Qed.

Lemma mem_string_In (x : string) (l : list string) :
  mem_string x l = true <-> In x l.
Proof.
  unfold mem_string. rewrite existsb_exists. split.
  - intros [y [Hy He]]. apply String.eqb_eq in He. now subst.
  - intros H. exists x. split; [assumption | apply String.eqb_refl].
Qed.

Lemma by_label_perm (data : DataFrame) (labels : list string) :
  NoDup labels ->
  Permutation
    (flat_map (fun l => filter (fun r => String.eqb (EC r) l) data) labels)
    (filter (fun r => mem_string (EC r) labels) data).
Proof.
  induction 1 as [|l ls Hl Hnd IH]; simpl.
  - induction data; simpl; auto.
  - rewrite IH. apply filter_or_perm.
    intros r _ He. apply String.eqb_eq in He. subst l.
    apply not_true_is_false. now rewrite mem_string_In.
Qed.

(** Every row of the frame belongs to exactly one of its labels. *)
Lemma labels_cover (data : DataFrame) :
  Permutation
    (flat_map (fun l => filter (fun r => String.eqb (EC r) l) data)
              (unique (map EC data)))
    data.
Proof.
  rewrite by_label_perm by apply unique_NoDup.
  replace (filter _ data) with data; [reflexivity|].
  symmetry. apply forallb_filter_id. apply forallb_forall.
  intros r Hr. apply mem_string_In, unique_In. now apply in_map.
Qed.

Lemma combine_xy (df : DataFrame) :
  combine (map col0 df) (map EC df) = map xy df.
Proof. induction df as [|r t IH]; simpl; [reflexivity | now rewrite IH]. Qed.

Lemma append_parts_assoc (acc : lists) (a b c a' b' c' : DataFrame) :
  append_parts (append_parts acc a b c) a' b' c' =
  append_parts acc (a ++ a') (b ++ b') (c ++ c').
Proof.
  unfold append_parts. simpl. now rewrite !map_app, !app_assoc.
Qed.

Lemma parts_perm {A : Type} (a b c a' b' c' l l' : list A) :
  Permutation (a ++ b ++ c) l -> Permutation (a' ++ b' ++ c') l' ->
  Permutation ((a ++ a') ++ (b ++ b') ++ (c ++ c')) (l ++ l').
Proof.
  intros H H'. rewrite <- H, <- H'.
  rewrite <- !app_assoc. apply Permutation_app_head.
  rewrite (Permutation_app_comm a' (b ++ b' ++ c ++ c')).
  rewrite <- !app_assoc. apply Permutation_app_head.
  rewrite (Permutation_app_comm b' (c ++ c' ++ a')).
  rewrite <- !app_assoc. apply Permutation_app_head.
  rewrite (Permutation_app_comm c' (a' ++ b')).
  now rewrite <- !app_assoc.
Qed.

Variable choice : nat -> nat -> list nat.

Hypothesis choice_spec : choice_contract choice.

Lemma sample_ok (df : DataFrame) (f : frac) :
  NoDup (map index df) -> 0 < fden f -> fnum f <= fden f ->
  exists s, sample choice df f = Ok s /\
            NoDup (map index s) /\ incl s df /\
            List.length s = py_round f (List.length df).
Proof.
  intros Hdf Hd Hn. unfold sample.
  destruct (choice_spec (List.length df) (py_round f (List.length df)))
    as [C1 [C2 C3]]; [now apply py_round_le|].
  destruct (take_ok df _ C2) as [s [Hs Hf]].
  destruct (taken_rows df _ s Hdf C1 Hf) as [T1 [T2 T3]].
  exists s. rewrite T3, C3. auto.
Qed.

Lemma split_label_ok (data : DataFrame) (label : string) :
  NoDup (map index data) ->
  let df := filter (fun r => String.eqb (EC r) label) data in
  let n := List.length df in
  let m := py_round frac_0_2 n in
  let v := py_round (valid_frac n) m in
  exists train test valid,
    split_label choice data label = Ok (train, test, valid) /\
    Permutation (train ++ test ++ valid) df /\
    List.length valid = v /\
    List.length test = m - v /\
    List.length train = n - m.
Proof.
  intros Hnd df n m v.
  assert (Hdf : NoDup (map index df)) by now apply filter_keeps_unique_keys.
  assert (Hgen : forall f, f = valid_frac n -> exists train test valid,
    (test0 <- sample choice df frac_0_2 ;;
     valid <- sample choice test0 f ;;
     Ok (drop (map index test0) df, drop (map index valid) test0, valid))
    = Ok (train, test, valid) /\
    Permutation (train ++ test ++ valid) df /\
    List.length valid = v /\ List.length test = m - v /\
    List.length train = n - m).
  { intros f Hf.
    destruct (sample_ok df frac_0_2 Hdf) as [t0 [E0 [N0 [I0 L0]]]];
      [simpl; lia | simpl; lia |].
    assert (Hfr : 0 < fden f /\ fnum f <= fden f).
    { subst f. unfold valid_frac. destruct (20 <=? n); simpl; lia. }
    destruct (sample_ok t0 f N0) as [va [E1 [N1 [I1 L1]]]]; [tauto | tauto |].
    exists (drop (map index t0) df), (drop (map index va) t0), va.
    rewrite E0. simpl. rewrite E1. simpl.
    pose proof (drop_part df t0 Hdf N0 I0) as P0.
    pose proof (drop_part t0 va N0 N1 I1) as P1.
    pose proof (Permutation_length P0) as LP0.
    pose proof (Permutation_length P1) as LP1.
    rewrite length_app in LP0, LP1.
    fold n in L0. fold m in L0. rewrite L0, Hf in L1. fold v in L1.
    fold n in LP0. repeat split.
    - rewrite <- P0 at 2. apply Permutation_app_head. exact P1.
    - exact L1.
    - lia.
    - lia. }
  unfold split_label. fold df. fold n. unfold valid_frac in Hgen.
  destruct (20 <=? n); apply Hgen; reflexivity.
Qed.

Lemma split_loop_ok (data : DataFrame) (labels : list string) :
  NoDup (map index data) ->
  forall acc, exists TR TE VA,
    split_loop choice data labels acc = Ok (append_parts acc TR TE VA) /\
    Permutation (TR ++ TE ++ VA)
      (flat_map (fun l => filter (fun r => String.eqb (EC r) l) data) labels).
Proof.
  intros Hnd. induction labels as [|l ls IH]; intros acc; simpl.
  - exists [], [], []. split; [|constructor].
    unfold append_parts. simpl. rewrite !app_nil_r. now destruct acc.
  - destruct (split_label_ok data l Hnd) as [tr [te [va [E [P _]]]]].
    rewrite E. simpl.
    destruct (IH (append_parts acc tr te va)) as [TR [TE [VA [E' P']]]].
    exists (tr ++ TR), (te ++ TE), (va ++ VA).
    rewrite E', append_parts_assoc. split; [reflexivity|].
    now apply parts_perm.
Qed.

(** The script returns, and the three frames it writes are the columns 0 and
    1 of three lists of rows that together are the balanced frame. *)
Lemma script_ok (point_clouds : list string) (lines : list (string * string)) :
  exists out TR TE VA,
    script choice point_clouds lines = Ok out /\
    balanced_data_set point_clouds lines = Ok (balanced out) /\
    NoDup (map index (balanced out)) /\
    train_csv out = map xy TR /\
    test_csv out = map xy TE /\
    valid_csv out = map xy VA /\
    Permutation (TR ++ TE ++ VA) (balanced out).
Proof.
  destruct (balanced_data_set_spec point_clouds lines) as [ec [H1 [H2 H3]]].
  assert (Hnd : NoDup (map index (filter_low_counts ec)))
    by now apply filter_keeps_unique_keys.
  destruct (split_loop_ok (filter_low_counts ec)
              (unique (map EC (filter_low_counts ec))) Hnd empty_lists)
    as [TR [TE [VA [E P]]]].
  rewrite labels_cover in P.
  eexists. exists TR, TE, VA.
  unfold script, split_frame. rewrite H2. simpl. rewrite E. simpl.
  rewrite !combine_xy. repeat split; auto.
Qed.

Lemma py_round_fifth (n : nat) :
  5 * py_round frac_0_2 n <= n + 2 /\ n <= 5 * py_round frac_0_2 n + 2.
Proof.
  unfold py_round, frac_0_2. simpl fnum. simpl fden. rewrite Nat.mul_1_l.
  pose proof (Nat.div_mod_eq n 5) as E.
  pose proof (Nat.mod_upper_bound n 5) as U.
  destruct (2 * (n mod 5) <? 5) eqn:H1;
    [apply Nat.ltb_lt in H1; lia | apply Nat.ltb_ge in H1].
  destruct (5 <? 2 * (n mod 5)) eqn:H2;
    [apply Nat.ltb_lt in H2; lia | apply Nat.ltb_ge in H2; lia].
Qed.

(** C3: the script returns; the three frames it writes are columns 0 and 1
    of three lists of rows of the balanced frame that have no index label in
    common (each row is in exactly one of train, test and valid) and that
    together are the balanced frame, so that no row is lost or written
    twice; and the same holds label by label. *)
Theorem split_is_a_partition (point_clouds : list string)
    (lines : list (string * string)) :
  exists out TR TE VA,
    script choice point_clouds lines = Ok out /\
    train_csv out = map xy TR /\
    test_csv out = map xy TE /\
    valid_csv out = map xy VA /\
    Permutation (TR ++ TE ++ VA) (balanced out) /\
    NoDup (map index (TR ++ TE ++ VA)) /\
    Permutation (train_csv out ++ test_csv out ++ valid_csv out)
                (map xy (balanced out)) /\
    (forall label,
        exists train test valid,
          split_label choice (balanced out) label = Ok (train, test, valid) /\
          Permutation (train ++ test ++ valid)
            (filter (fun r => String.eqb (EC r) label) (balanced out)) /\
          NoDup (map index (train ++ test ++ valid))).
Proof.
  destruct (script_ok point_clouds lines)
    as [out [TR [TE [VA [E [B [N [H1 [H2 [H3 P]]]]]]]]]].
  exists out, TR, TE, VA. repeat split; auto.
  - apply (Permutation_NoDup (Permutation_sym (Permutation_map index P)) N).
  - rewrite H1, H2, H3, <- !map_app. now apply Permutation_map.
  - intros label.
    destruct (split_label_ok (balanced out) label N)
      as [tr [te [va [E' [P' _]]]]].
    exists tr, te, va. repeat split; auto.
    apply (Permutation_NoDup (Permutation_sym (Permutation_map index P'))).
    now apply filter_keeps_unique_keys.
Qed.

(** C4, as the code has it: the script returns, and for a class of [n] rows
    of the balanced frame the sample has [m = round(0.2 n)] rows (the
    integer nearest to a fifth of [n]), valid holds [round(0.25 m)] of them
    when [n >= 20] and [round(0.5 m)] of them when [n < 20] (ties to the even
    integer), test holds the other rows of the sample, and train holds the
    [n - m] rows of the class that were not sampled. *)
Theorem split_sizes (point_clouds : list string)
    (lines : list (string * string)) :
  exists out,
    script choice point_clouds lines = Ok out /\
    forall label,
      let n := count_EC label (balanced out) in
      let m := py_round frac_0_2 n in
      let v := py_round (if 20 <=? n then frac_0_25 else frac_0_5) m in
      exists train test valid,
        split_label choice (balanced out) label = Ok (train, test, valid) /\
        List.length valid = v /\
        List.length test = m - v /\
        List.length train = n - m /\
        v <= m <= n /\
        5 * m <= n + 2 /\ n <= 5 * m + 2.
Proof.
  destruct (script_ok point_clouds lines)
    as [out [TR [TE [VA [E [B [N _]]]]]]].
  exists out. split; [exact E|]. intros label n m v.
  destruct (split_label_ok (balanced out) label N)
    as [tr [te [va [E' [_ [L1 [L2 L3]]]]]]].
  exists tr, te, va. repeat split; auto.
  - subst v. apply py_round_le; destruct (20 <=? n); simpl; lia.
  - subst m. apply py_round_le; simpl; lia.
  - apply py_round_fifth.
  - apply py_round_fifth.
Qed.

Lemma py_round_quarter (m : nat) :
  4 * py_round frac_0_25 m <= m + 2 /\ m <= 4 * py_round frac_0_25 m + 2.
Proof.
  unfold py_round, frac_0_25. simpl fnum. simpl fden. rewrite Nat.mul_1_l.
  pose proof (Nat.div_mod_eq m 4) as E.
  pose proof (Nat.mod_upper_bound m 4) as U.
  destruct (2 * (m mod 4) <? 4) eqn:H1;
    [apply Nat.ltb_lt in H1; lia | apply Nat.ltb_ge in H1].
  destruct (4 <? 2 * (m mod 4)) eqn:H2;
    [apply Nat.ltb_lt in H2; lia | apply Nat.ltb_ge in H2].
  destruct (Nat.even (m / 4)); lia.
Qed.

(** The sizes of the three parts of a class of at least [MIN_SAMPLES] rows. *)
Lemma part_sizes (n : nat) :
  MIN_SAMPLES <= n ->
  let m := py_round frac_0_2 n in
  let v := py_round (valid_frac n) m in
  0 < v /\ v < m /\ m < n.
Proof.
  intros Hn m v. unfold MIN_SAMPLES in Hn.
  pose proof (py_round_fifth n) as F. fold m in F.
  unfold valid_frac in v. destruct (Nat.leb_spec 20 n) as [H|H].
  - pose proof (py_round_quarter m) as Q. fold v in Q. lia.
  - assert (Hm : m = 2 \/ m = 3 \/ m = 4) by lia.
    subst v. destruct Hm as [-> | [-> | ->]]; vm_compute; lia.
Qed.

(** Lines 56-89: every class of the balanced frame has at least one row in
    each of train, test and valid. *)
Theorem every_class_reaches_every_part (point_clouds : list string)
    (lines : list (string * string)) :
  exists out,
    script choice point_clouds lines = Ok out /\
    forall r, In r (balanced out) ->
      exists train test valid,
        split_label choice (balanced out) (EC r) = Ok (train, test, valid) /\
        train <> [] /\ test <> [] /\ valid <> [].
Proof.
  destruct (script_ok point_clouds lines)
    as [out [TR [TE [VA [E [B [N _]]]]]]].
  exists out. split; [exact E|]. intros r Hr.
  destruct (balanced_data_set_spec point_clouds lines) as [ec [_ [B' _]]].
  rewrite B in B'. injection B' as B'.
  assert (Hc : MIN_SAMPLES <= count_EC (EC r) (balanced out)).
  { rewrite B' in *. rewrite count_EC_filter_low_counts.
    apply filter_In in Hr as [_ Hr]. rewrite Hr. now apply Nat.leb_le. }
  destruct (split_label_ok (balanced out) (EC r) N)
    as [tr [te [va [E' [_ [L1 [L2 L3]]]]]]].
  destruct (part_sizes _ Hc) as [P1 [P2 P3]]. unfold count_EC in P1, P2, P3.
  exists tr, te, va. split; [exact E'|].
  repeat split; intros ->; simpl in *; lia.
Qed.

End SplitFacts.

Section SplitExamples.
Import DataSampling.

Lemma choice_prefix_contract : choice_contract choice_prefix.
Proof.
  intros a size H. unfold choice_prefix. repeat split.
  - apply seq_NoDup.
  - apply Forall_forall. intros i Hi. apply in_seq in Hi. lia.
  - apply length_seq.
Qed.

Lemma split_is_a_partition_witness :
  exists out,
    script choice_prefix ["P12345.txt"%string] (one_class 20) = Ok out /\
    Permutation (train_csv out ++ test_csv out ++ valid_csv out)
                (map xy (balanced out)).
Proof.
  destruct (split_is_a_partition choice_prefix choice_prefix_contract
              ["P12345.txt"%string] (one_class 20))
    as [out [TR [TE [VA [E [_ [_ [_ [_ [_ [P _]]]]]]]]]]].
  exists out. split; assumption.
Defined.

Lemma split_sizes_witness :
  exists out train test valid,
    script choice_prefix ["P12345.txt"%string] (one_class 20) = Ok out /\
    split_label choice_prefix (balanced out) "1.1.1.1" =
      Ok (train, test, valid) /\
    List.length train = 16 /\ List.length test = 3 /\ List.length valid = 1.
Proof.
  destruct (split_sizes choice_prefix choice_prefix_contract
              ["P12345.txt"%string] (one_class 20)) as [out [E H]].
  destruct (H "1.1.1.1"%string) as [tr [te [va [E' [L1 [L2 [L3 _]]]]]]].
  exists out, tr, te, va.
  vm_compute in E. injection E as <-.
  repeat split; [exact E' | exact L3 | exact L2 | exact L1].
Defined.

(** C4 as the claim has it fails on a class of 15 rows: the sample has 3
    rows, and test and valid do not each hold half of it. *)
Lemma split_of_15_rows_is_uneven :
  exists out,
    script choice_prefix ["P12345.txt"%string] (one_class 15) = Ok out /\
    count_EC "1.1.1.1" (balanced out) = 15 /\
    List.length (train_csv out) = 12 /\
    List.length (test_csv out) = 1 /\
    List.length (valid_csv out) = 2 /\
    List.length (test_csv out) <> List.length (valid_csv out).
Proof.
  eexists. split; [vm_compute; reflexivity|]. simpl.
  repeat split; try reflexivity. discriminate.
Qed.

Lemma every_class_reaches_every_part_witness :
  exists out train test valid,
    script choice_prefix ["P12345.txt"%string] (one_class 10) = Ok out /\
    split_label choice_prefix (balanced out) "1.1.1.1" =
      Ok (train, test, valid) /\
    List.length train = 8 /\ List.length test = 1 /\ List.length valid = 1.
Proof.
  destruct (every_class_reaches_every_part choice_prefix
              choice_prefix_contract ["P12345.txt"%string] (one_class 10))
    as [out [E H]].
  pose proof E as E0. vm_compute in E0. injection E0 as <-.
  destruct (H (mkRow 0 "P12345" "1.1.1.1" "P12345.txt"))
    as [tr [te [va [E' _]]]]; [left; reflexivity|].
  eexists. exists tr, te, va. split; [exact E|]. split; [exact E'|].
  vm_compute in E'. injection E' as <- <- <-. repeat split.
Defined.

End SplitExamples.

(** ** The tokenizer *)

Section TokenizerFacts.
Import Tokenizer.

Lemma star_cls_sound {R : Type} (c : cls) (s : str) :
  forall (acc : str) (k : str -> str -> option R) (res : R),
    star_cls c acc s k = Some res ->
    exists u rest, s = u ++ rest /\
                   Forall (fun x => in_cls c x = true) u /\
                   k (rev u ++ acc) rest = Some res.
Proof.
  induction s as [|x t IH]; intros acc k res H; simpl in H.
  - exists [], []. auto.
  - destruct (in_cls c x) eqn:Hx.
    + destruct (star_cls c (x :: acc) t k) as [r|] eqn:Hs.
      * injection H as ->. destruct (IH _ _ _ Hs) as [u [rest [E [F K]]]].
        exists (x :: u), rest. subst t. repeat split; auto.
        simpl. now rewrite <- app_assoc.
      * exists [], (x :: t). auto.
    + exists [], (x :: t). auto.
Qed.

Lemma rep_cls_sound {R : Type} (n : nat) (c : cls) :
  forall (acc s : str) (k : str -> str -> option R) (res : R),
    rep_cls n c acc s k = Some res ->
    exists u rest, s = u ++ rest /\
                   List.length u = n /\
                   Forall (fun x => in_cls c x = true) u /\
                   k (rev u ++ acc) rest = Some res.
Proof.
  induction n as [|n IH]; intros acc s k res H; simpl in H.
  - exists [], s. auto.
  - destruct s as [|x t]; [discriminate|].
    destruct (in_cls c x) eqn:Hx; [|discriminate].
    destruct (IH _ _ _ _ H) as [u [rest [E [L [F K]]]]].
    exists (x :: u), rest. subst t. simpl. repeat split; auto.
    now rewrite <- app_assoc.
Qed.

(** What the matcher accepts is in the language of the expression. *)
Lemma rmatch_sound {R : Type} (r : regex) :
  forall (acc s : str) (k : str -> str -> option R) (res : R),
    rmatch r acc s k = Some res ->
    exists u rest, s = u ++ rest /\ lang r u /\
                   k (rev u ++ acc) rest = Some res.
Proof.
  induction r as [c|r1 IH1 r2 IH2|r1 IH1 r2 IH2|r1 IH1|c|n c];
    intros acc s k res H; simpl in H.
  - destruct s as [|x t]; [discriminate|].
    destruct (in_cls c x) eqn:Hx; [|discriminate].
    exists [x], t. repeat split; auto. simpl. now exists x.
  - destruct (IH1 _ _ _ _ H) as [u [rest [E [L K]]]].
    destruct (IH2 _ _ _ _ K) as [v [rest' [E' [L' K']]]].
    exists (u ++ v), rest'. subst. rewrite <- app_assoc. repeat split.
    + simpl. now exists u, v.
    + now rewrite rev_app_distr, <- app_assoc.
  - destruct (rmatch r1 acc s k) as [x|] eqn:H1.
    + injection H as ->. destruct (IH1 _ _ _ _ H1) as [u [rest [E [L K]]]].
      exists u, rest. simpl. auto.
    + destruct (IH2 _ _ _ _ H) as [u [rest [E [L K]]]].
      exists u, rest. simpl. auto.
  - destruct (rmatch r1 acc s k) as [x|] eqn:H1.
    + injection H as ->. destruct (IH1 _ _ _ _ H1) as [u [rest [E [L K]]]].
      exists u, rest. simpl. auto.
    + exists [], s. simpl. auto.
  - destruct s as [|x t]; [discriminate|].
    destruct (in_cls c x) eqn:Hx; [|discriminate].
    destruct (star_cls_sound _ _ _ _ _ H) as [u [rest [E [F K]]]].
    exists (x :: u), rest. subst t. simpl. repeat split; auto.
    + discriminate.
    + now rewrite <- app_assoc.
  - destruct (rep_cls_sound _ _ _ _ _ _ H) as [u [rest [E [L [F K]]]]].
    exists u, rest. simpl. auto.
Qed.

Lemma match_at_sound (r : regex) (s tok rest : str) :
  match_at r s = Some (tok, rest) -> s = tok ++ rest /\ lang r tok.
Proof.
  unfold match_at. intros H.
  destruct (rmatch_sound _ _ _ _ _ H) as [u [rest' [E [L K]]]].
  rewrite app_nil_r, rev_involutive in K. injection K as <- <-. auto.
Qed.

(** The greedy [+] takes the whole run of characters of the class when the
    next character is outside the class and the continuation succeeds
    there. *)
Lemma star_cls_greedy {R : Type} (c : cls) (u : str) :
  forall (acc rest : str) (k : str -> str -> option R) (res : R),
    Forall (fun x => in_cls c x = true) u ->
    (forall x t, rest = x :: t -> in_cls c x = false) ->
    k (rev u ++ acc) rest = Some res ->
    star_cls c acc (u ++ rest) k = Some res.
Proof.
  induction u as [|a u IH]; intros acc rest k res F Hr K; simpl in *.
  - destruct rest as [|x t]; simpl; [assumption|].
    now rewrite (Hr x t eq_refl).
  - inversion F as [|? ? Ha F']; subst. rewrite Ha.
    rewrite (IH (a :: acc) rest k res); auto.
    now rewrite <- app_assoc in K.
Qed.

Lemma digit_cases (x : ascii) :
  in_cls Digit x = true ->
  In x (list_ascii_of_string "0123456789").
Proof.
  destruct x as [[] [] [] [] [] [] [] []]; simpl; intros H;
    try discriminate H; tauto.
Qed.

Ltac lit_char H :=
  let x := fresh "x" in
  let E := fresh "E" in
  destruct H as [x [-> E]]; simpl in E; apply Ascii.eqb_eq in E; subst x.

(** At the head of a token of the pattern followed by such a text, the
    pattern matches that token. *)
Lemma match_at_token (tok rest : str) :
  lang pattern tok -> follows rest ->
  match_at pattern (tok ++ rest) = Some (tok, rest).
Proof.
  intros H Hrest. unfold pattern in H. simpl alts in H.
  repeat match type of H with
         | lang (Alt _ _) _ => destruct H as [H|H]
         end.
  - (* \[[^\]]+] *)
    destruct H as [u [v [-> [Hu [w [z [-> [[Hw Fw] Hz]]]]]]]].
    lit_char Hu. lit_char Hz.
    destruct w as [|a w]; [contradiction|].
    inversion Fw as [|? ? Ha Fw']; subst.
    unfold match_at, pattern. simpl alts. simpl app.
    cbn [rmatch lit list_ascii_of_string in_cls]. simpl Ascii.eqb.
    simpl in Ha. rewrite Ha. rewrite <- app_assoc.
    erewrite star_cls_greedy; [reflexivity | exact Fw' | |].
    + intros x t [= <- <-]. reflexivity.
    + simpl. rewrite rev_app_distr, rev_involutive. reflexivity.
  - (* Br? *)
    destruct H as [u [v [-> [Hu [->|Hv]]]]]; lit_char Hu.
    + destruct rest as [|x t]; [reflexivity|].
      destruct (Hrest x t eq_refl) as [Hx _].
      unfold match_at, pattern. simpl alts. simpl app.
      cbn [rmatch lit list_ascii_of_string in_cls]. simpl Ascii.eqb.
      now rewrite Hx.
    + lit_char Hv. reflexivity.
  - (* Cl? *)
    destruct H as [u [v [-> [Hu [->|Hv]]]]]; lit_char Hu.
    + destruct rest as [|x t]; [reflexivity|].
      destruct (Hrest x t eq_refl) as [_ Hx].
      unfold match_at, pattern. simpl alts. simpl app.
      cbn [rmatch lit list_ascii_of_string in_cls]. simpl Ascii.eqb.
      now rewrite Hx.
    + lit_char Hv. reflexivity.
  - lit_char H; reflexivity.
  - lit_char H; reflexivity.
  - lit_char H; reflexivity.
  - lit_char H; reflexivity.
  - lit_char H; reflexivity.
  - lit_char H; reflexivity.
  - lit_char H; reflexivity.
  - lit_char H; reflexivity.
  - lit_char H; reflexivity.
  - lit_char H; reflexivity.
  - lit_char H; reflexivity.
  - lit_char H; reflexivity.
  - lit_char H; reflexivity.
  - lit_char H; reflexivity.
  - lit_char H; reflexivity.
  - lit_char H; reflexivity.
  - lit_char H; reflexivity.
  - lit_char H; reflexivity.
  - lit_char H; reflexivity.
  - lit_char H; reflexivity.
  - lit_char H; reflexivity.
  - lit_char H; reflexivity.
  - lit_char H; reflexivity.
  - lit_char H; reflexivity.
  - lit_char H; reflexivity.
  - lit_char H; reflexivity.
  - lit_char H; reflexivity.
  - lit_char H; reflexivity.
  - (* %[0-9]{2} *)
    destruct H as [u [v [-> [Hu [Lv Fv]]]]]. lit_char Hu.
    destruct v as [|a [|b [|? ?]]]; try discriminate Lv.
    inversion Fv as [|? ? Ha Fv']; subst.
    inversion Fv' as [|? ? Hb _]; subst.
    apply digit_cases in Ha, Hb. simpl in Ha, Hb.
    repeat (destruct Ha as [<-|Ha]; [|]); try contradiction;
      repeat (destruct Hb as [<-|Hb]; [|]); try contradiction; reflexivity.
  - (* [0-9] *)
    destruct H as [x [-> Hx]]. apply digit_cases in Hx. simpl in Hx.
    repeat (destruct Hx as [<-|Hx]; [|]); try contradiction; reflexivity.
Qed.

Lemma match_at_lang (tok : str) :
  match_at pattern tok = Some (tok, []) -> lang pattern tok.
Proof. intros H. now apply match_at_sound in H. Qed.

(** A token of the pattern is not empty and does not start with [r] or
    [l]. *)
Lemma token_head (tok : str) :
  lang pattern tok ->
  exists x t, tok = x :: t /\
              Ascii.eqb x "r" = false /\ Ascii.eqb x "l" = false.
Proof.
  intros H. pose proof (match_at_token tok [] H) as M.
  rewrite app_nil_r in M.
  assert (Hf : follows []) by (intros x t Hx; discriminate Hx).
  specialize (M Hf). destruct tok as [|x t].
  - discriminate M.
  - exists x, t. split; [reflexivity|].
    destruct (Ascii.eqb_spec x "r") as [->|_];
      [destruct t; discriminate M|].
    destruct (Ascii.eqb_spec x "l") as [->|_];
      [destruct t; discriminate M|]. auto.
Qed.

Lemma concat_follows (toks : list str) :
  Forall (lang pattern) toks -> follows (List.concat toks).
Proof.
  intros [|tok toks' H _]; intros x t E; simpl in E; [discriminate|].
  destruct (token_head tok H) as [y [u [-> Hy]]].
  simpl in E. injection E as <- _. exact Hy.
Qed.

(** On a sequence of tokens, [findall] finds these tokens. *)
Lemma findall_tokens (toks : list str) :
  Forall (lang pattern) toks ->
  forall fuel, List.length (List.concat toks) <= fuel ->
               findall_fuel fuel pattern (List.concat toks) = toks.
Proof.
  induction 1 as [|tok toks H F IH]; intros fuel Hf; simpl.
  - now destruct fuel.
  - destruct (token_head tok H) as [x [t [E _]]].
    destruct fuel as [|fuel]; [subst tok; simpl in Hf; lia|].
    pose proof (match_at_token tok _ H (concat_follows toks F)) as M.
    subst tok. simpl in *. rewrite M. f_equal. apply IH.
    rewrite length_app in Hf. lia.
Qed.

Lemma findall_sound (fuel : nat) :
  forall s, Forall (lang pattern) (findall_fuel fuel pattern s).
Proof.
  induction fuel as [|fuel IH]; intros s; simpl; [constructor|].
  destruct s as [|x t]; [constructor|].
  destruct (match_at pattern (x :: t)) as [[tok rest]|] eqn:M; [|apply IH].
  apply match_at_sound in M as [E L].
  destruct tok as [|y u].
  - destruct (token_head [] L) as [? [? [D _]]]. discriminate D.
  - constructor; [exact L | apply IH].
Qed.

Lemma str_eqb_eq (a b : str) : str_eqb a b = true <-> a = b.
Proof.
  unfold str_eqb. destruct (list_eq_dec ascii_dec a b); split; auto.
  discriminate.
Qed.

Lemma join_spaced (toks : list str) : spaced toks (join [" "%char] toks).
Proof.
  induction toks as [|t ts IH]; [reflexivity|].
  destruct ts as [|t' ts]; simpl in *.
  - now rewrite app_nil_r.
  - rewrite <- IH. reflexivity.
Qed.

(** C8: on a text made of matches of the pattern, [smi_tokenizer] passes its
    assertion and returns these matches with exactly one space between two
    neighbours, and the matches it found, put together, are the text,
    character by character; on any other text it raises
    [AssertionError]. *)
Theorem smi_tokenizer_spec :
  (forall toks,
      Forall (lang pattern) toks ->
      findall pattern (List.concat toks) = toks /\
      exists out,
        smi_tokenizer (List.concat toks) = Ok out /\
        spaced toks out /\
        out = join [" "%char] toks) /\
  (forall smi,
      ~ tokenizable smi -> smi_tokenizer smi = Raise AssertionError) /\
  (forall smi out,
      smi_tokenizer smi = Ok out ->
      spaced (findall pattern smi) out /\
      out = join [" "%char] (findall pattern smi) /\
      List.concat (findall pattern smi) = smi /\
      Forall (lang pattern) (findall pattern smi)).
Proof.
  assert (Hok : forall smi out,
      smi_tokenizer smi = Ok out ->
      spaced (findall pattern smi) out /\
      out = join [" "%char] (findall pattern smi) /\
      List.concat (findall pattern smi) = smi /\
      Forall (lang pattern) (findall pattern smi)).
  { intros smi out H. unfold smi_tokenizer in H.
    destruct (str_eqb smi (List.concat (findall pattern smi))) eqn:E;
      [|discriminate].
    apply str_eqb_eq in E. injection H as <-.
    repeat split; [apply join_spaced | now symmetry | apply findall_sound]. }
  split; [|split; [|exact Hok]].
  - intros toks F.
    assert (E : findall pattern (List.concat toks) = toks)
      by (apply findall_tokens; auto).
    split; [exact E|]. exists (join [" "%char] toks).
    split; [|split; [apply join_spaced | reflexivity]].
    unfold smi_tokenizer. rewrite E.
    now rewrite (proj2 (str_eqb_eq _ _) eq_refl).
  - intros smi Hn. destruct (smi_tokenizer smi) as [out|e] eqn:E.
    + exfalso. apply Hn. destruct (Hok smi out E) as [_ [_ [C F]]].
      now exists (findall pattern smi).
    + unfold smi_tokenizer in E.
      now destruct (str_eqb smi (List.concat (findall pattern smi))).
Qed.

(** The text of a reaction is tokenized to the text with single spaces; a
    text with a character outside every token is refused. *)
Lemma smi_tokenizer_spec_witness :
  smi_tokenizer (smiles "CC(=O)Cl.[Na+]") =
    Ok (smiles "C C ( = O ) Cl . [Na+]") /\
  smi_tokenizer (smiles "CCa") = Raise AssertionError.
Proof.
  destruct smi_tokenizer_spec as [H1 [H2 H3]].
  split.
  - destruct (H1 (map smiles
                    ["C"; "C"; "("; "="; "O"; ")"; "Cl"; "."; "[Na+]"]%string))
      as [_ [out [E [S _]]]].
    + cbn [map].
      repeat (apply Forall_cons;
              [apply match_at_lang; vm_compute; reflexivity|]).
      apply Forall_nil.
    + assert (I : List.concat
                    (map smiles
                       ["C"; "C"; "("; "="; "O"; ")"; "Cl"; "."; "[Na+]"]%string)
                  = smiles "CC(=O)Cl.[Na+]") by (vm_compute; reflexivity).
      rewrite I in E. rewrite E. f_equal.
      unfold spaced in S. cbn [map] in S.
      vm_compute in S. injection S as ->. vm_compute. reflexivity.
  - apply H2. intros [toks [F E]].
    destruct (H1 toks F) as [_ [out [T _]]]. rewrite E in T.
    assert (C : smi_tokenizer (smiles "CCa") = Raise AssertionError)
      by (vm_compute; reflexivity).
    rewrite C in T. discriminate T.
Defined.

End TokenizerFacts.

(** ** Shapes of the tensor operations *)

Section TensorShapes.
Import Torch MolTransformer.

Lemma Linear_forward_shape (l : Linear) (x : Tensor) (a b : nat) :
  shape x = [a; b; in_features l] ->
  exists y, Linear_forward l x = Ok y /\ shape y = [a; b; out_features l].
Proof.
  intros H. unfold Linear_forward. rewrite H. cbn [last].
  rewrite Nat.eqb_refl. eexists. split; reflexivity.
Qed.


Lemma reshape_shape (t : Tensor) (sh : list nat) :
  numel (shape t) = numel sh ->
  exists y, reshape t sh = Ok y /\ shape y = sh.
Proof.
  intros H. unfold reshape. rewrite H, Nat.eqb_refl.
  eexists. split; reflexivity.
Qed.





Lemma permute_21304 (t : Tensor) (a b c d e : nat) :
  shape t = [a; b; c; d; e] ->
  exists y, permute t [2; 1; 3; 0; 4] = Ok y /\ shape y = [c; b; d; a; e].
Proof.
  intros H. unfold permute. rewrite H. eexists. split; reflexivity.
Qed.


Lemma permute_102 (t : Tensor) (a b c : nat) :
  shape t = [a; b; c] ->
  exists y, permute t [1; 0; 2] = Ok y /\ shape y = [b; a; c] /\
            forall i j k, data y [i; j; k] = data t [j; i; k].
Proof.
  intros H. unfold permute. rewrite H. eexists. repeat split; reflexivity.
Qed.

Lemma select_shape (t : Tensor) (i d : nat) (ds : list nat) :
  shape t = d :: ds -> i < d ->
  exists y, select t i = Ok y /\ shape y = ds.
Proof.
  intros H Hi. unfold select. rewrite H.
  rewrite (proj2 (Nat.ltb_lt i d) Hi). eexists. split; reflexivity.
Qed.



Lemma mask_product_ok (mask : option MaskTensor) (dp : Tensor)
    (a b c d : nat) :
  mask_ok mask -> shape dp = [a; b; c; d] ->
  exists r, match mask with
            | Some mask => einsum_xy_abcd_abxy mask dp
            | None => Ok (mkMaskTensor [] (fun _ => Finite 0%R))
            end = Ok r.
Proof.
  intros Hm Hd. destruct mask as [m|]; [|eexists; reflexivity].
  destruct Hm as [x [y Hm]]. unfold einsum_xy_abcd_abxy. rewrite Hm, Hd.
  eexists. reflexivity.
Qed.

End TensorShapes.

(** ** The one-hot encoder *)

Section OneHot.
Import Torch MolTransformer.

Lemma list_eqb_eq (a b : list nat) : list_eqb a b = true <-> a = b.
Proof.
  unfold list_eqb. destruct (list_eq_dec Nat.eq_dec a b); split; auto.
  discriminate.
Qed.

Lemma one_hot_tokens_spec (v : LongTensor) (batch b s vocab : nat)
    (positions : list nat) :
  (batch < b) ->
  Forall (fun i => (i < s) /\ (ldata v [0; i] < vocab)) positions ->
  forall out, shape out = [b; s; vocab] ->
    exists out',
      one_hot_tokens v batch positions out = Ok out' /\
      shape out' = [b; s; vocab] /\
      forall idx,
        data out' idx =
        updated (map (fun i => [batch; i; ldata v [0; i]]) positions)
                (data out) idx.
Proof.
  intros Hb. induction 1 as [|i rest [Hi Ht] F IH]; intros out Hs; simpl.
  - exists out. repeat split; auto.
  - unfold setitem. rewrite Hs. cbn [in_bounds].
    rewrite (proj2 (Nat.ltb_lt _ _) Hb), (proj2 (Nat.ltb_lt _ _) Hi),
            (proj2 (Nat.ltb_lt _ _) Ht).
    cbn [andb bind].
    match goal with |- context [one_hot_tokens v batch rest ?o] =>
      destruct (IH o) as [out' [E [S' D]]]; [reflexivity|] end.
    exists out'. repeat split; auto.
    intros idx. rewrite D. unfold updated. simpl.
    destruct (list_eqb idx [batch; i; ldata v [0; i]]) eqn:E1; simpl.
    + now destruct (existsb _ _).
    + reflexivity.
Qed.

Lemma one_hot_batches_spec (v : LongTensor) (b s vocab : nat)
    (batches : list nat) :
  Forall (fun batch => (batch < b)) batches ->
  (forall i, (i < s) -> (ldata v [0; i] < vocab)) ->
  forall out, shape out = [b; s; vocab] ->
    exists out',
      one_hot_batches v s batches out = Ok out' /\
      shape out' = [b; s; vocab] /\
      forall idx,
        data out' idx =
        updated (flat_map (fun batch =>
                   map (fun i => [batch; i; ldata v [0; i]]) (seq 0 s))
                   batches)
                (data out) idx.
Proof.
  intros Hb Hv. induction Hb as [|batch rest Hbatch F IH]; intros out Hs; simpl.
  - exists out. repeat split; auto.
  - destruct (one_hot_tokens_spec v batch b s vocab (seq 0 s) Hbatch)
      with (out := out) as [o1 [E1 [S1 D1]]]; auto.
    { apply Forall_forall. intros i Hi. apply in_seq in Hi.
      split; [lia | apply Hv; lia]. }
    rewrite E1. cbn [bind].
    destruct (IH o1 S1) as [o2 [E2 [S2 D2]]].
    exists o2. repeat split; auto.
    intros idx. rewrite D2. unfold updated in *.
    rewrite existsb_app, D1.
    destruct (existsb (list_eqb idx) (flat_map _ rest)); simpl.
    + now rewrite orb_true_r.
    + now rewrite orb_false_r.
Qed.

(** C9: when every token of the first row [v[0]] is below [vocab_size],
    [one_hot_encoder] returns a tensor of shape (batch_size, seq_length,
    vocab_size) whose slice at every batch index [b] is the one-hot encoding
    of the tokens of [v[0]]: the rows [v[b]] with [b > 0] are never read. *)
Theorem one_hot_encoder_repeats_first_row (v : LongTensor)
    (batch_size seq_length vocab_size : nat) :
  lshape v = [batch_size; seq_length] ->
  (forall i, (i < seq_length) -> (ldata v [0; i] < vocab_size)) ->
  exists out,
    one_hot_encoder v vocab_size = Ok out /\
    shape out = [batch_size; seq_length; vocab_size] /\
    forall b i j,
      (b < batch_size) -> (i < seq_length) -> (j < vocab_size) ->
      data out [b; i; j] = one_hot (ldata v [0; i]) j.
Proof.
  intros Hs Hv. unfold one_hot_encoder. rewrite Hs.
  destruct (one_hot_batches_spec v batch_size seq_length vocab_size
              (seq 0 batch_size))
    with (out := zeros [batch_size; seq_length; vocab_size])
    as [out [E [S D]]]; auto.
  { apply Forall_forall. intros b Hb. apply in_seq in Hb. lia. }
  exists out. repeat split; auto.
  intros b i j Hb Hi Hj. rewrite D. unfold updated, one_hot.
  destruct (j =? ldata v [0; i]) eqn:Ej.
  - apply Nat.eqb_eq in Ej. subst j.
    replace (existsb _ _) with true; [reflexivity|].
    symmetry. apply existsb_exists. exists [b; i; ldata v [0; i]].
    split; [|now apply list_eqb_eq].
    apply in_flat_map. exists b. split; [apply in_seq; lia|].
    apply in_map_iff. exists i. split; [reflexivity | apply in_seq; lia].
  - replace (existsb _ _) with false; [reflexivity|].
    symmetry. apply not_true_is_false. intros Hex.
    apply existsb_exists in Hex as [u [Hu Eu]].
    apply list_eqb_eq in Eu. subst u.
    apply in_flat_map in Hu as [b' [_ Hu]].
    apply in_map_iff in Hu as [i' [Eu _]].
    injection Eu as _ <- Eu. apply Nat.eqb_neq in Ej. congruence.
Qed.

Lemma one_hot_tokens_raises (v : LongTensor) (batch b s vocab : nat)
    (positions : list nat) :
  Exists (fun i => vocab <= ldata v [0; i]) positions ->
  forall out, shape out = [b; s; vocab] ->
    one_hot_tokens v batch positions out = Raise IndexError.
Proof.
  induction positions as [|i rest IH]; intros Hex out Hs.
  - inversion Hex.
  - simpl. unfold setitem. rewrite Hs.
    destruct (in_bounds [b; s; vocab] [batch; i; ldata v [0; i]]) eqn:B;
      cbn [bind]; [|reflexivity].
    apply Exists_cons in Hex as [H|H].
    + cbn [in_bounds] in B. apply Nat.ltb_ge in H. rewrite H in B.
      rewrite !andb_false_r in B. discriminate B.
    + now apply IH.
Qed.

(** Lines 113-117: with at least one row in the batch, a token of the first
    row that is not below [vocab_size] makes [one_hot_encoder] raise
    [IndexError] at the assignment of line 117. *)
Theorem one_hot_encoder_token_out_of_range (v : LongTensor)
    (batch_size seq_length vocab_size i : nat) :
  lshape v = [batch_size; seq_length] ->
  0 < batch_size -> i < seq_length -> vocab_size <= ldata v [0; i] ->
  one_hot_encoder v vocab_size = Raise IndexError.
Proof.
  intros Hs Hb Hi Ht. unfold one_hot_encoder. rewrite Hs.
  destruct batch_size as [|n]; [lia|]. cbn [seq one_hot_batches].
  rewrite (one_hot_tokens_raises v 0 (S n) seq_length vocab_size);
    [reflexivity | | reflexivity].
  apply Exists_exists. exists i. split; [apply in_seq; lia | exact Ht].
Qed.

Lemma one_hot_encoder_token_out_of_range_witness :
  one_hot_encoder two_rows 1 = Raise IndexError.
Proof.
  apply (one_hot_encoder_token_out_of_range two_rows 2 2 1 0);
    [reflexivity | lia | lia | simpl; lia].
Defined.

Lemma one_hot_encoder_repeats_first_row_witness :
  exists out,
    one_hot_encoder two_rows 2 = Ok out /\
    data out [1; 0; 1] = 1%R /\
    data out [1; 0; 1] <> one_hot (ldata two_rows [1; 0]) 1.
Proof.
  destruct (one_hot_encoder_repeats_first_row two_rows 2 2 2 eq_refl)
    as [out [E [_ D]]].
  - intros [|[|i]] Hi; simpl; lia.
  - exists out. split; [exact E|].
    rewrite (D 1 0 1) by lia. simpl. unfold one_hot. simpl.
    split; [reflexivity | lra].
Defined.

End OneHot.

(** ** The attention weights *)

Section Attention.
Import Torch MolTransformer.
Local Open Scope R_scope.

Lemma sum_n_pos (n : nat) (f : nat -> R) :
  (0 < n)%nat -> (forall j, 0 < f j) -> 0 < sum_n n f.
Proof.
  intros Hn Hf. destruct n as [|n]; [lia|]. clear Hn.
  induction n as [|n IH]; simpl in *.
  - specialize (Hf 0%nat). lra.
  - specialize (Hf (S n)). lra.
Qed.


Lemma sum_n_div (n : nat) (f : nat -> R) (c : R) :
  sum_n n (fun j => f j / c) = sum_n n f / c.
Proof.
  induction n as [|n IH]; simpl; [unfold Rdiv; ring|].
  rewrite IH. unfold Rdiv. ring.
Qed.

(** Every entry of a softmax over a non-empty last axis is positive. *)
Lemma softmax_pos (t : Tensor) (idx : list nat) :
  (0 < last (shape t) 0)%nat -> 0 < data (softmax t) idx.
Proof.
  intros Hn. simpl. apply Rdiv_lt_0_compat; [apply exp_pos|].
  apply sum_n_pos; [assumption | intros j; apply exp_pos].
Qed.

(** The entries of a softmax along the last axis add up to 1. *)
Lemma softmax_sum (t : Tensor) (pre : list nat) :
  (0 < last (shape t) 0)%nat ->
  sum_n (last (shape t) 0%nat) (fun j => data (softmax t) (pre ++ [j])) = 1.
Proof.
  intros Hn. simpl.
  assert (E : forall m,
    sum_n m (fun j => exp (data t (pre ++ [j])) /
       sum_n (last (shape t) 0%nat)
         (fun j0 => exp (data t (removelast (pre ++ [j]) ++ [j0])))) =
    sum_n m (fun j => exp (data t (pre ++ [j])) /
       sum_n (last (shape t) 0%nat)
         (fun j0 => exp (data t (pre ++ [j0]))))).
  { induction m as [|m IH]; simpl; [reflexivity|].
    now rewrite IH, removelast_last. }
  rewrite E, sum_n_div. apply Rinv_r.
  apply Rgt_not_eq. apply sum_n_pos; [assumption | intros j; apply exp_pos].
Qed.

Lemma head_dim_exact (n_heads head_dim : nat) :
  n_heads <> 0%nat -> (n_heads * head_dim / n_heads)%nat = head_dim.
Proof. intros H. rewrite Nat.mul_comm. now apply Nat.div_mul. Qed.

(** The shapes along lines 239-261 for an input of shape
    (seq_len, batch, n_heads * head_dim). *)
Lemma SelfAttention_scores_shape (sd rng : state_dict) (p : path)
    (n_heads head_dim : nat) (qkv_bias : bool) (attn_p proj_p : R)
    (x : Tensor) (s b : nat) (mask : option MaskTensor) :
  n_heads <> 0%nat ->
  shape x = [s; b; n_heads * head_dim]%nat ->
  mask_ok mask ->
  exists dp q k v,
    SelfAttention_scores
      (SelfAttention_init sd rng p (n_heads * head_dim) n_heads qkv_bias
         attn_p proj_p) x mask = Ok (softmax dp, q, k, v) /\
    shape dp = [b; n_heads; s; s] /\
    shape q = [b; n_heads; s; head_dim] /\
    shape k = [b; n_heads; s; head_dim] /\
    shape v = [b; n_heads; s; head_dim].
Proof.
  intros Hh Hx Hm. unfold SelfAttention_scores, SelfAttention_init.
  cbn [sa_dim sa_qkv sa_n_heads sa_head_dim sa_scale].
  rewrite Hx, Nat.eqb_refl, head_dim_exact by assumption. cbn [negb].
  destruct (Linear_forward_shape
              (Linear_init sd (p ++ [Name "qkv"]) (n_heads * head_dim)
                 (n_heads * head_dim * 3) qkv_bias) x s b Hx)
    as [qkv0 [E0 S0]].
  rewrite E0. cbn [bind]. cbn [Linear_init out_features] in S0.
  destruct (reshape_shape qkv0 [s; b; 3; n_heads; head_dim]%nat)
    as [qkv1 [E1 S1]].
  { rewrite S0. cbn [numel fold_right]. ring. }
  rewrite E1. cbn [bind].
  destruct (permute_21304 qkv1 _ _ _ _ _ S1) as [qkv2 [E2 S2]].
  rewrite E2. cbn [bind].
  destruct (select_shape qkv2 0 _ _ S2) as [q [Eq Sq]]; [lia|].
  destruct (select_shape qkv2 1 _ _ S2) as [k [Ek Sk]]; [lia|].
  destruct (select_shape qkv2 2 _ _ S2) as [v [Ev Sv]]; [lia|].
  rewrite Eq, Ek, Ev. cbn [bind].
  unfold einsum_kabc_qdef_qabe at 1. rewrite Sk, Sq. cbn [bind].
  match goal with |- context [scale ?t ?c] => set (dp := scale t c) end.
  assert (Sdp : shape dp = [b; n_heads; s; s]) by reflexivity.
  destruct (mask_product_ok mask dp _ _ _ _ Hm Sdp) as [r Er].
  rewrite Er. cbn [bind].
  exists dp, q, k, v. repeat split; assumption.
Qed.

(** The mask given to [SelfAttention.forward] has no effect on the attention
    weights: the product of line 259 is dropped, and the weights are the
    softmax of the scores without a mask. *)
Lemma SelfAttention_scores_ignore_mask (m : SelfAttention) (x : Tensor)
    (mask : MaskTensor) (a b : nat) :
  mshape mask = [a; b] ->
  SelfAttention_scores m x (Some mask) = SelfAttention_scores m x None.
Proof.
  intros Hm. unfold SelfAttention_scores.
  destruct (shape x) as [|d0 [|d1 [|d2 [|? ?]]]]; try reflexivity.
  destruct (negb (d2 =? sa_dim m)%nat); [reflexivity|].
  destruct (Linear_forward (sa_qkv m) x) as [t0|]; [|reflexivity]. cbn [bind].
  destruct (reshape t0 _) as [t1|]; [|reflexivity]. cbn [bind].
  destruct (permute t1 _) as [t2|]; [|reflexivity]. cbn [bind].
  destruct (select t2 0) as [q|]; [|reflexivity]. cbn [bind].
  destruct (select t2 1) as [k|]; [|reflexivity]. cbn [bind].
  destruct (select t2 2) as [v|]; [|reflexivity]. cbn [bind].
  unfold einsum_kabc_qdef_qabe.
  destruct (shape k) as [|k0 [|k1 [|k2 [|k3 [|? ?]]]]]; try reflexivity.
  destruct (shape q) as [|q0 [|q1 [|q2 [|q3 [|? ?]]]]]; try reflexivity.
  cbn [bind]. unfold einsum_xy_abcd_abxy. rewrite Hm. reflexivity.
Qed.

Lemma SelfAttention_forward_ignore_mask (m : SelfAttention) (x : Tensor)
    (mask : MaskTensor) (a b : nat) :
  mshape mask = [a; b] ->
  SelfAttention_forward m x (Some mask) = SelfAttention_forward m x None.
Proof.
  intros Hm. unfold SelfAttention_forward.
  now rewrite (SelfAttention_scores_ignore_mask m x mask a b Hm).
Qed.

Lemma EncoderDecoderAttention_forward_ignore_mask
    (m : EncoderDecoderAttention) (x k v : Tensor) (mask : MaskTensor)
    (a b : nat) :
  mshape mask = [a; b] ->
  EncoderDecoderAttention_forward m x k v (Some mask) =
  EncoderDecoderAttention_forward m x k v None.
Proof.
  intros Hm. unfold EncoderDecoderAttention_forward.
  destruct (shape x) as [|d0 [|d1 [|d2 [|? ?]]]]; try reflexivity.
  destruct (negb (d2 =? eda_dim m)%nat); [reflexivity|].
  destruct (Linear_forward (eda_q_matrix m) x) as [t0|]; [|reflexivity].
  cbn [bind].
  destruct (reshape t0 _) as [t1|]; [|reflexivity]. cbn [bind].
  destruct (permute t1 _) as [q|]; [|reflexivity]. cbn [bind].
  unfold einsum_abkd_abqd_abqk.
  destruct (shape k) as [|k0 [|k1 [|k2 [|k3 [|? ?]]]]]; try reflexivity.
  destruct (shape q) as [|q0 [|q1 [|q2 [|q3 [|? ?]]]]]; try reflexivity.
  destruct (shared k0 q0) as [na|]; [|reflexivity]. cbn [bind].
  destruct (shared k1 q1) as [nb|]; [|reflexivity]. cbn [bind].
  destruct (shared k3 q3) as [nd|]; [|reflexivity]. cbn [bind].
  unfold einsum_xy_abcd_abxy. rewrite Hm. reflexivity.
Qed.



(** C1, what the code does: with the mask of [generate_mask] passed to the
    self-attention (lines 256-261), the attention weights of a non-empty
    sequence are all positive, also at the positions [j > i] above the
    diagonal, and each row of weights adds up to 1: the mask is not
    applied. *)
Theorem attention_weights_with_causal_mask (sd rng : state_dict) (p : path)
    (n_heads head_dim : nat) (qkv_bias : bool) (attn_p proj_p : R)
    (x : Tensor) (s b sz : nat) :
  n_heads <> 0%nat ->
  shape x = [s; b; n_heads * head_dim]%nat ->
  (0 < s)%nat ->
  exists w q k v,
    SelfAttention_scores
      (SelfAttention_init sd rng p (n_heads * head_dim) n_heads qkv_bias
         attn_p proj_p) x (Some (generate_mask sz)) = Ok (w, q, k, v) /\
    shape w = [b; n_heads; s; s] /\
    (forall idx, 0 < data w idx) /\
    (forall pre, sum_n s (fun j => data w (pre ++ [j])) = 1).
Proof.
  intros Hh Hx Hs.
  destruct (SelfAttention_scores_shape sd rng p n_heads head_dim qkv_bias
              attn_p proj_p x s b (Some (generate_mask sz)) Hh Hx)
    as [dp [q [k [v [E [Sdp _]]]]]].
  { simpl. now exists sz, sz. }
  exists (softmax dp), q, k, v. split; [exact E|]. split; [exact Sdp|].
  assert (L : last (shape dp) 0%nat = s) by now rewrite Sdp.
  split.
  - intros idx. apply softmax_pos. now rewrite L.
  - intros pre. rewrite <- L at 1. apply softmax_sum. now rewrite L.
Qed.

End Attention.

(** ** The blocks and the forward pass *)

Section Blocks.
Import Torch MolTransformer.
Local Open Scope R_scope.

Variable GELU : R -> R.
Variables sd rng : state_dict.
Variables n_heads head_dim mlp_ratio : nat.
Variable qkv_bias : bool.
Variables pr attn_p : R.
Hypothesis heads : n_heads <> 0%nat.

Local Notation "'dim'" := (n_heads * head_dim)%nat.






End Blocks.

Section Forward.
Import Torch MolTransformer.
Local Open Scope R_scope.

Lemma indices_matrix (b s : nat) (idx : list nat) :
  In idx (indices [b; s]) ->
  exists i j, idx = [i; j] /\ (i < b)%nat /\ (j < s)%nat.
Proof.
  simpl. intros H. apply in_flat_map in H as [i [Hi H]].
  apply in_map_iff in H as [u [<- H]].
  apply in_flat_map in H as [j [Hj H]].
  destruct H as [<-|[]]. apply in_seq in Hi, Hj.
  exists i, j. repeat split; lia.
Qed.

(** Lines 140-155: the embedding of a batch of shape (batch, seq_len) has
    shape (seq_len, batch, embed_dim). *)
Lemma Embedding_forward_shape (sd : state_dict) (p : path)
    (vocab_size embed_dim : nat) (x : LongTensor) (b s : nat) :
  lshape x = [b; s] -> valid_tokens x b s vocab_size ->
  exists y, Embedding_forward (Embedding_init sd p vocab_size embed_dim) x
            = Ok y /\ shape y = [s; b; embed_dim].
Proof.
  intros Hx Hv. unfold Embedding_forward, Embedding_init, nnEmbedding_forward.
  cbn [embed nnEmbedding_init num_embeddings embedding_dim table].
  rewrite Hx.
  replace (forallb _ (indices [b; s])) with true.
  - cbn [bind app].
    match goal with |- context [permute ?u _] =>
      destruct (permute_102 u b s embed_dim eq_refl) as [y [Ey [Sy _]]] end.
    exists y. split; assumption.
  - symmetry. apply forallb_forall. intros idx Hi.
    apply indices_matrix in Hi as [i [j [-> [Hi Hj]]]].
    apply Nat.ltb_lt. now apply Hv.
Qed.

(** A token that is not below the size of the vocabulary is an
    [IndexError]. *)
Lemma Embedding_forward_out_of_range (sd : state_dict) (p : path)
    (vocab_size embed_dim : nat) (x : LongTensor) (b s i j : nat) :
  lshape x = [b; s] -> (i < b)%nat -> (j < s)%nat ->
  (vocab_size <= ldata x [i; j])%nat ->
  Embedding_forward (Embedding_init sd p vocab_size embed_dim) x
  = Raise IndexError.
Proof.
  intros Hx Hi Hj Hv. unfold Embedding_forward, Embedding_init, nnEmbedding_forward.
  cbn [embed nnEmbedding_init num_embeddings embedding_dim table].
  rewrite Hx.
  replace (forallb _ (indices [b; s])) with false; [reflexivity|].
  symmetry. apply not_true_is_false. intros H.
  rewrite forallb_forall in H. specialize (H [i; j]).
  rewrite Nat.ltb_lt in H. enough ((ldata x [i; j] < vocab_size)%nat) by lia.
  apply H. simpl. apply in_flat_map. exists i. split; [apply in_seq; lia|].
  apply in_map. apply in_flat_map. exists j. split; [apply in_seq; lia|].
  now left.
Qed.


(** Beyond [max_len] positions the sum of line 193 is a [RuntimeError]. *)
Lemma PositionalEncoding_forward_too_long (rng : state_dict) (p : path)
    (embed_dim max_len : nat) (dropout : R) (x : Tensor) (s b : nat) :
  shape x = [s; b; embed_dim] -> (max_len < s)%nat -> (1 < max_len)%nat ->
  PositionalEncoding_forward
    (PositionalEncoding_init rng p embed_dim dropout max_len) x
  = Raise RuntimeError.
Proof.
  intros Hx Hs Hm. unfold PositionalEncoding_forward, PositionalEncoding_init.
  cbn [pe pe_dropout]. rewrite Hx. unfold slice_to. cbn [shape bind].
  rewrite Nat.min_r by lia.
  unfold add, broadcast_shapes. rewrite Hx. cbn [shape rev app broadcast_rev bind].
  replace (s =? max_len)%nat with false by (symmetry; apply Nat.eqb_neq; lia).
  replace (s =? 1)%nat with false by (symmetry; apply Nat.eqb_neq; lia).
  replace (max_len =? 1)%nat with false by (symmetry; apply Nat.eqb_neq; lia).
  reflexivity.
Qed.

End Forward.

Section Masking.
Import Torch MolTransformer.

Lemma EncoderBlock_forward_ignore_mask (m : EncoderBlock) (x : Tensor)
    (mask : MaskTensor) (a b : nat) :
  mshape mask = [a; b] ->
  EncoderBlock_forward m x (Some mask) = EncoderBlock_forward m x None.
Proof.
  intros Hm. unfold EncoderBlock_forward.
  now rewrite (SelfAttention_forward_ignore_mask _ x mask a b Hm).
Qed.

Lemma DecoderBlock_forward_ignore_mask (m : DecoderBlock) (x k v : Tensor)
    (mask : MaskTensor) (a b : nat) :
  mshape mask = [a; b] ->
  DecoderBlock_forward m x k v (Some mask) = DecoderBlock_forward m x k v None.
Proof.
  intros Hm. unfold DecoderBlock_forward.
  rewrite (SelfAttention_forward_ignore_mask _ x mask a b Hm).
  destruct (SelfAttention_forward (dec_self_attn m) x None)
    as [[[[attn q0] k0] v0]|]; [|reflexivity]. cbn [bind].
  destruct (add attn x) as [s1|]; [|reflexivity]. cbn [bind].
  destruct (LayerNorm_forward (dec_norm1 m) s1) as [n1|]; [|reflexivity].
  cbn [bind].
  now rewrite (EncoderDecoderAttention_forward_ignore_mask _ n1 k v mask a b Hm).
Qed.

Lemma run_encoder_ignore_mask (blocks : list EncoderBlock) (mask : MaskTensor)
    (a b : nat) :
  mshape mask = [a; b] ->
  forall src kv,
    run_encoder blocks src kv (Some mask) = run_encoder blocks src kv None.
Proof.
  intros Hm. induction blocks as [|blk rest IH]; intros src kv; simpl.
  - reflexivity.
  - rewrite (EncoderBlock_forward_ignore_mask blk src mask a b Hm).
    destruct (EncoderBlock_forward blk src None) as [[[o k] v]|];
      [|reflexivity].
    cbn [bind]. apply IH.
Qed.

Lemma run_decoder_ignore_mask (blocks : list DecoderBlock) (mask : MaskTensor)
    (a b : nat) :
  mshape mask = [a; b] ->
  forall tgt kv,
    run_decoder blocks tgt kv (Some mask) = run_decoder blocks tgt kv None.
Proof.
  intros Hm. induction blocks as [|blk rest IH]; intros tgt kv; simpl.
  - reflexivity.
  - destruct kv as [[k v]|]; [|reflexivity].
    rewrite (DecoderBlock_forward_ignore_mask blk tgt k v mask a b Hm).
    destruct (DecoderBlock_forward blk tgt k v None) as [o|]; [|reflexivity].
    cbn [bind]. apply IH.
Qed.

(** Lines 619-627 with 259 and 334: on batches of rank 2 the flags
    [src_masking] and [tgt_masking] do not change what the forward pass
    returns, because both attention layers drop the product with the
    mask. *)
Theorem masking_flags_have_no_effect (emb : Embedding)
    (posenc : PositionalEncoding) (pdrop : Dropout)
    (enc : list EncoderBlock) (dec : list DecoderBlock) (hd : Linear)
    (src_flag tgt_flag : bool) (src tgt : LongTensor) (b s b' t : nat) :
  lshape src = [b; s] -> lshape tgt = [b'; t] ->
  Transformer_forward
    (mkTransformer emb posenc pdrop enc dec src_flag tgt_flag hd) src tgt =
  Transformer_forward
    (mkTransformer emb posenc pdrop enc dec false false hd) src tgt.
Proof.
  intros Hs Ht. unfold Transformer_forward, mask_for.
  cbn [src_masking tgt_masking embedding pos_encoding pos_drop encoder_blocks
       decoder_blocks head].
  rewrite Hs, Ht.
  destruct src_flag, tgt_flag; cbn [bind].
  all: destruct (Embedding_forward emb src) as [e1|];
         [cbn [bind] | reflexivity].
  all: destruct (PositionalEncoding_forward posenc e1) as [y1|];
         [cbn [bind] | reflexivity].
  all: rewrite ?(run_encoder_ignore_mask enc (generate_mask s) s s eq_refl).
  all: destruct (run_encoder enc _ None None) as [[o kv]|];
         [cbn [bind] | reflexivity].
  all: destruct (Embedding_forward emb tgt) as [e2|];
         [cbn [bind] | reflexivity].
  all: destruct (PositionalEncoding_forward posenc e2) as [y2|];
         [cbn [bind] | reflexivity].
  all: rewrite ?(run_decoder_ignore_mask dec (generate_mask t) t t eq_refl).
  all: reflexivity.
Qed.

End Masking.

Section Model.
Import Torch MolTransformer.
Local Open Scope R_scope.

Variable GELU : R -> R.
Variables sd rng : state_dict.
Variables vocab_size n_heads head_dim mlp_ratio : nat.
Variables encoder_depth decoder_depth : nat.
Variable qkv_bias : bool.
Variables pr attn_p : R.
Variables use_src_mask use_tgt_mask : bool.

Hypothesis heads : n_heads <> 0%nat.
Hypothesis width : (n_heads * head_dim = 512)%nat.

Local Notation "'the_model'" :=
  (Transformer_init GELU sd rng vocab_size (n_heads * head_dim) encoder_depth
     decoder_depth n_heads mlp_ratio qkv_bias pr attn_p use_src_mask
     use_tgt_mask).

Lemma mask_for_ok (masking : bool) (x : LongTensor) (b s : nat) :
  lshape x = [b; s] ->
  exists m, mask_for masking x = Ok m /\ mask_ok m.
Proof.
  intros Hx. unfold mask_for. rewrite Hx. destruct masking.
  - eexists. split; [reflexivity|]. simpl. now exists s, s.
  - exists None. split; [reflexivity | exact I].
Qed.




(** A source batch longer than 5000 positions makes the forward pass raise
    [RuntimeError]. *)
Theorem Transformer_forward_source_too_long (src tgt : LongTensor)
    (b s b' t : nat) :
  lshape src = [b; s] -> lshape tgt = [b'; t] ->
  (5000 < s)%nat -> valid_tokens src b s vocab_size ->
  Transformer_forward the_model src tgt = Raise RuntimeError.
Proof.
  clear heads width. intros Hsrc Htgt Hs Vs.
  destruct (mask_for_ok use_src_mask src b s Hsrc) as [ms [Ems Oms]].
  destruct (mask_for_ok use_tgt_mask tgt b' t Htgt) as [mt [Emt Omt]].
  destruct (Embedding_forward_shape sd [Name "embedding"] vocab_size 512 src
              b s Hsrc Vs) as [e1 [E1 S1]].
  unfold Transformer_forward.
  cbn [Transformer_init MolTransformer.src_masking MolTransformer.tgt_masking
       embedding pos_encoding pos_drop encoder_blocks decoder_blocks head].
  rewrite Ems, Emt. cbn [bind]. rewrite E1. cbn [bind].
  rewrite (PositionalEncoding_forward_too_long rng [Name "pos_encoding"] 512
             5000 (1 / 10) e1 s b S1 Hs) by lia.
  reflexivity.
Qed.

(** A source token that is not below [vocab_size] makes the forward pass
    raise [IndexError]. *)
Theorem Transformer_forward_token_out_of_range (src tgt : LongTensor)
    (b s b' t i j : nat) :
  lshape src = [b; s] -> lshape tgt = [b'; t] ->
  (i < b)%nat -> (j < s)%nat -> (vocab_size <= ldata src [i; j])%nat ->
  Transformer_forward the_model src tgt = Raise IndexError.
Proof.
  intros Hsrc Htgt Hi Hj Hv.
  destruct (mask_for_ok use_src_mask src b s Hsrc) as [ms [Ems Oms]].
  destruct (mask_for_ok use_tgt_mask tgt b' t Htgt) as [mt [Emt Omt]].
  unfold Transformer_forward.
  cbn [Transformer_init MolTransformer.src_masking MolTransformer.tgt_masking
       embedding pos_encoding pos_drop encoder_blocks decoder_blocks head] in *.
  rewrite Ems, Emt. cbn [bind].
  rewrite (Embedding_forward_out_of_range sd [Name "embedding"] vocab_size 512
             src b s i j Hsrc Hi Hj Hv).
  reflexivity.
Qed.

End Model.

Section ModelExamples.
Import Torch MolTransformer.
Local Open Scope R_scope.

Lemma attention_weights_with_causal_mask_witness :
  exists w q k v,
    SelfAttention_scores
      (SelfAttention_init zero_state zero_state [] (2 * 4) 2 true 0 0)
      (zeros [2; 1; 8]%nat) (Some (generate_mask 2)) = Ok (w, q, k, v) /\
    0 < data w [0; 0; 0; 1]%nat.
Proof.
  destruct (attention_weights_with_causal_mask zero_state zero_state [] 2 4
              true 0 0 (zeros [2; 1; 8]%nat) 2 1 2)
    as [w [q [k [v [E [_ [P _]]]]]]]; [lia | reflexivity | lia |].
  exists w, q, k, v. split; [exact E | apply P].
Defined.

Lemma valid_constant_batch (b s tok vocab_size : nat) :
  (tok < vocab_size)%nat ->
  valid_tokens (constant_batch [b; s] tok) b s vocab_size.
Proof. intros H i j _ _. exact H. Qed.



Lemma Transformer_forward_source_too_long_witness :
  Transformer_forward (model (fun x => x) zero_state zero_state 3)
    (constant_batch [1; 5000 + 1]%nat 0) (constant_batch [1; 2]%nat 1)
  = Raise RuntimeError.
Proof.
  apply (Transformer_forward_source_too_long (fun x => x) zero_state
           zero_state 3 8 64 4 8 8 true 0 0 false true
           (constant_batch [1; 5000 + 1]%nat 0) (constant_batch [1; 2]%nat 1)
           1 (5000 + 1) 1 2);
    [reflexivity | reflexivity | lia | apply valid_constant_batch; lia].
Defined.

Lemma Transformer_forward_token_out_of_range_witness :
  Transformer_forward (model (fun x => x) zero_state zero_state 3)
    (constant_batch [1; 2]%nat 7) (constant_batch [1; 2]%nat 1)
  = Raise IndexError.
Proof.
  apply (Transformer_forward_token_out_of_range (fun x => x) zero_state
           zero_state 3 8 64 4 8 8 true 0 0 false true
           (constant_batch [1; 2]%nat 7) (constant_batch [1; 2]%nat 1)
           1 2 1 2 0 0);
    [reflexivity | reflexivity | lia | lia | simpl; lia].
Defined.

Lemma masking_flags_have_no_effect_witness :
  Transformer_forward
    (mkTransformer
       (embedding (model (fun x => x) zero_state zero_state 3))
       (pos_encoding (model (fun x => x) zero_state zero_state 3))
       (pos_drop (model (fun x => x) zero_state zero_state 3))
       (encoder_blocks (model (fun x => x) zero_state zero_state 3))
       (decoder_blocks (model (fun x => x) zero_state zero_state 3))
       false true
       (head (model (fun x => x) zero_state zero_state 3)))
    two_rows two_rows =
  Transformer_forward
    (mkTransformer
       (embedding (model (fun x => x) zero_state zero_state 3))
       (pos_encoding (model (fun x => x) zero_state zero_state 3))
       (pos_drop (model (fun x => x) zero_state zero_state 3))
       (encoder_blocks (model (fun x => x) zero_state zero_state 3))
       (decoder_blocks (model (fun x => x) zero_state zero_state 3))
       false false
       (head (model (fun x => x) zero_state zero_state 3)))
    two_rows two_rows.
Proof.
  apply (masking_flags_have_no_effect _ _ _ _ _ _ false true two_rows
           two_rows 2 2 2 2); reflexivity.
Defined.

End ModelExamples.

(** ** The training loop *)

Section LoopFacts.
Import Training.

Variables params opt_state es_state batch : Type.
Variable train_step : params -> opt_state -> batch -> params * opt_state * Q.
Variable eval_step : params -> batch -> Q.
Variable invoke : es_state -> pyval -> params -> bool * es_state.
Variables train_loader test_loader : nat -> list batch.

Local Notation "'State'" := (state params opt_state es_state).
Local Notation "'body'" :=
  (epoch_body train_step eval_step invoke train_loader test_loader).
Local Notation "'losses'" :=
  (epoch_losses train_step eval_step train_loader test_loader).
Local Notation "'run'" :=
  (run_epochs train_step eval_step invoke train_loader test_loader).
Local Notation "'goes'" :=
  (continues train_step eval_step invoke train_loader test_loader).
Local Notation "'stop_asked'" :=
  (triggers train_step eval_step invoke train_loader test_loader).
Local Notation "'loop'" :=
  (training_loop train_step eval_step invoke train_loader test_loader).

(** The three ways in which one epoch ends. *)
Lemma epoch_body_cases (epoch : nat) (st : State) :
  match losses epoch st with
  | Raise e => body epoch st = Raised e
  | Ok (m, o, tl, vl) =>
      let tls := train_loss st ++ [tl] in
      let vls := test_loss st ++ [vl] in
      let sm := summary st ++ [EpochLine epoch tl vl] in
      if fst (invoke (early_stopping st) vl m) then
        match checkpoint st with
        | None => body epoch st = Raised FileNotFoundError
        | Some saved =>
            body epoch st =
            Break (mkState saved o (snd (invoke (early_stopping st) vl m))
                     (checkpoint st) (summary_file st) tls vls
                     (sm ++ [EarlyStopLine epoch]))
        end
      else
        body epoch st =
        Continue (mkState m o (snd (invoke (early_stopping st) vl m))
                    (Some m) (Some sm) tls vls sm)
  end.
Proof.
  unfold epoch_losses, epoch_body.
  destruct (train_batches train_step (train_loader epoch) (model st)
              (optimizer st) (PyInt 0)) as [[m o] bl].
  destruct (py_div bl _) as [tl|e]; cbn [bind]; [|reflexivity].
  destruct (py_div (test_batches eval_step (test_loader epoch) m (PyInt 0)) _)
    as [vl|e]; cbn [bind]; [|reflexivity].
  destruct (invoke (early_stopping st) vl m) as [[] es]; cbn [fst snd].
  - destruct (checkpoint st); reflexivity.
  - reflexivity.
Qed.

(** An epoch that runs to its end was not asked to stop, leaves the trained
    parameters in the checkpoint file and adds one entry to each list. *)
Lemma continue_inv (epoch : nat) (st st' : State) :
  body epoch st = Continue st' ->
  ~ stop_asked epoch st /\
  checkpoint st' = Some (model st') /\
  summary_file st' = Some (summary st') /\
  exists m o tl vl,
    losses epoch st = Ok (m, o, tl, vl) /\
    model st' = m /\
    train_loss st' = train_loss st ++ [tl] /\
    test_loss st' = test_loss st ++ [vl] /\
    summary st' = summary st ++ [EpochLine epoch tl vl].
Proof.
  intros H. pose proof (epoch_body_cases epoch st) as C.
  destruct (losses epoch st) as [[[[m o] tl] vl]|e] eqn:L;
    [|rewrite C in H; discriminate].
  cbn zeta in C.
  destruct (fst (invoke (early_stopping st) vl m)) eqn:I.
  - destruct (checkpoint st); rewrite C in H; discriminate.
  - rewrite C in H. injection H as <-. cbn. repeat split.
    + intros [m' [o' [tl' [vl' [E T]]]]]. rewrite L in E.
      injection E as <- <- <- <-.
      rewrite I in T. discriminate.
    + exists m, o, tl, vl. repeat split.
Qed.

(** An epoch that breaks out of the loop was asked to stop and has loaded the
    checkpoint file into the model. *)
Lemma break_inv (epoch : nat) (st st' : State) :
  body epoch st = Break st' ->
  stop_asked epoch st /\
  checkpoint st = Some (model st') /\
  checkpoint st' = checkpoint st /\
  summary_file st' = summary_file st.
Proof.
  intros H. pose proof (epoch_body_cases epoch st) as C.
  destruct (losses epoch st) as [[[[m o] tl] vl]|e] eqn:L;
    [|rewrite C in H; discriminate].
  cbn zeta in C.
  destruct (fst (invoke (early_stopping st) vl m)) eqn:I.
  - destruct (checkpoint st) as [saved|] eqn:K; rewrite C in H;
      [|discriminate].
    injection H as <-. cbn. repeat split.
    exists m, o, tl, vl. auto.
  - rewrite C in H. discriminate.
Qed.


Lemma goes_deterministic (epochs : list nat) (st a b : State) :
  goes epochs st a -> goes epochs st b -> a = b.
Proof.
  intros Ha. revert b. induction Ha as [st|e rest st s1 s2 E Ha IH];
    intros b Hb; inversion Hb; subst; [reflexivity|].
  apply IH. congruence.
Qed.

Lemma goes_app (l1 l2 : list nat) (st a b : State) :
  goes l1 st a -> goes l2 a b -> goes (l1 ++ l2) st b.
Proof.
  induction 1 as [st|e rest st s1 s2 E Ha IH]; intros Hb; simpl;
    [assumption|].
  econstructor; eauto.
Qed.

Lemma goes_split (l1 l2 : list nat) (st b : State) :
  goes (l1 ++ l2) st b -> exists a, goes l1 st a /\ goes l2 a b.
Proof.
  revert st. induction l1 as [|e l1 IH]; intros st H; simpl in H.
  - exists st. split; [constructor | assumption].
  - inversion H as [|? ? ? s1 ? E H']; subst.
    destruct (IH s1 H') as [a [Ha Hb]].
    exists a. split; [econstructor; eauto | assumption].
Qed.

(** How the loop over a list of epochs ends. *)
Lemma run_epochs_spec (epochs : list nat) (st : State) :
  match run epochs st with
  | Finished st' => goes epochs st st'
  | Stopped epoch st' =>
      exists pre post st_e,
        epochs = pre ++ epoch :: post /\ goes pre st st_e /\
        body epoch st_e = Break st'
  | Crashed epoch e =>
      exists pre post st_e,
        epochs = pre ++ epoch :: post /\ goes pre st st_e /\
        body epoch st_e = Raised e
  end.
Proof.
  revert st. induction epochs as [|e rest IH]; intros st; simpl.
  - constructor.
  - destruct (body e st) as [st1|st1|x] eqn:E.
    + specialize (IH st1). destruct (run rest st1) as [s|e' s|e' x].
      * econstructor; eauto.
      * destruct IH as [pre [post [st_e [-> [G B]]]]].
        exists (e :: pre), post, st_e. repeat split; auto.
        econstructor; eauto.
      * destruct IH as [pre [post [st_e [-> [G B]]]]].
        exists (e :: pre), post, st_e. repeat split; auto.
        econstructor; eauto.
    + exists [], rest, st. repeat split; auto. constructor.
    + exists [], rest, st. repeat split; auto. constructor.
Qed.

Lemma cut_at_same_length {A : Type} (front front' : list A) :
  forall back back' : list A,
    List.length front = List.length front' ->
    front ++ back = front' ++ back' -> front = front' /\ back = back'.
Proof.
  revert front'. induction front as [|x front IH]; intros [|y front'];
    simpl; intros back back' L H; try discriminate L; [auto|].
  injection H as -> H. injection L as L.
  destruct (IH front' back back' L H) as [-> ->]. auto.
Qed.

Lemma seq_split_at (n : nat) (pre post : list nat) (e : nat) :
  seq 0 n = pre ++ e :: post ->
  pre = seq 0 e /\ e < n /\ post = seq (S e) (n - S e).
Proof.
  intros H.
  assert (L : List.length pre = e).
  { assert (N : nth (List.length pre) (seq 0 n) 0 = e)
      by (rewrite H, app_nth2, Nat.sub_diag; auto).
    assert (B : List.length pre < n).
    { apply (f_equal (@List.length nat)) in H.
      rewrite length_seq, length_app in H. simpl in H. lia. }
    rewrite seq_nth in N by assumption. exact N. }
  assert (B : e < n).
  { apply (f_equal (@List.length nat)) in H.
    rewrite length_seq, length_app in H. simpl in H. lia. }
  replace n with (e + (n - e)) in H by lia.
  rewrite seq_app in H. simpl in H.
  replace (n - e) with (S (n - S e)) in H by lia. simpl in H.
  symmetry in H. apply cut_at_same_length in H.
  - destruct H as [H1 H2]. injection H2 as H2. repeat split; auto.
  - now rewrite length_seq.
Qed.

Lemma seq_cut (n e : nat) :
  e < n -> seq 0 n = seq 0 e ++ e :: seq (S e) (n - S e).
Proof.
  intros H. replace n with (e + S (n - S e)) at 1 by lia.
  now rewrite seq_app.
Qed.


(** The state in which epoch [e] of a longer run is entered, and that this
    epoch ran to its end. *)
Lemma goes_through (n e : nat) (st0 st_n st_e : State) :
  e < n -> goes (seq 0 n) st0 st_n -> goes (seq 0 e) st0 st_e ->
  exists st', body e st_e = Continue st'.
Proof.
  intros He Hn Hg. rewrite (seq_cut n e He) in Hn.
  apply goes_split in Hn as [a [Ha Hb]].
  rewrite (goes_deterministic _ _ _ _ Hg Ha).
  inversion Hb; subst. eauto.
Qed.




Lemma loop_finished (st0 st : State) :
  loop st0 = Finished st ->
  goes (seq 0 num_epochs) st0 st /\
  forall e st_e, e < num_epochs -> goes (seq 0 e) st0 st_e ->
                 ~ stop_asked e st_e.
Proof.
  unfold training_loop. intros H.
  pose proof (run_epochs_spec (seq 0 num_epochs) st0) as S.
  rewrite H in S. split; [exact S|].
  intros e st_e He G.
  destruct (goes_through num_epochs e st0 st st_e He S G) as [st' E].
  now apply continue_inv in E.
Qed.





Lemma train_batches_tensor (bs : list batch) :
  forall m o acc,
    (bs <> [] \/ is_tensor acc) ->
    is_tensor (snd (train_batches train_step bs m o acc)).
Proof.
  induction bs as [|b rest IH]; intros m o acc H; simpl.
  - destruct H as [H|H]; [contradiction | exact H].
  - destruct (train_step m o b) as [[m' o'] l]. apply IH.
    right. unfold add_loss. now eexists.
Qed.

Lemma test_batches_tensor (bs : list batch) :
  forall m acc,
    (bs <> [] \/ is_tensor acc) ->
    is_tensor (test_batches eval_step bs m acc).
Proof.
  induction bs as [|b rest IH]; intros m acc H; simpl.
  - destruct H as [H|H]; [contradiction | exact H].
  - apply IH. right. unfold add_loss. now eexists.
Qed.

Lemma average_is_tensor (x y : pyval) (n : nat) :
  (n = 0 -> x = PyInt 0) -> (n <> 0 -> is_tensor x) ->
  py_div x n = Ok y -> is_tensor y.
Proof.
  intros Hz Hn H. destruct n as [|n].
  - rewrite (Hz eq_refl) in H. discriminate H.
  - destruct (Hn ltac:(discriminate)) as [q ->]. simpl in H.
    injection H as <-. now eexists.
Qed.

(** The two averages of an epoch are tensors. *)
Lemma epoch_losses_tensor (e : nat) (st : State) m o tl vl :
  losses e st = Ok (m, o, tl, vl) -> is_tensor tl /\ is_tensor vl.
Proof.
  unfold epoch_losses. intros L.
  pose proof (train_batches_tensor (train_loader e) (model st) (optimizer st)
                (PyInt 0)) as T.
  assert (Z : train_loader e = [] ->
              snd (train_batches train_step (train_loader e) (model st)
                     (optimizer st) (PyInt 0)) = PyInt 0)
    by (intros ->; reflexivity).
  destruct (train_batches train_step (train_loader e) (model st)
              (optimizer st) (PyInt 0)) as [[m' o'] bl].
  simpl in T, Z.
  destruct (py_div bl _) as [tl'|x] eqn:D1; cbn [bind] in L; [|discriminate].
  pose proof (test_batches_tensor (test_loader e) m' (PyInt 0)) as V.
  destruct (py_div (test_batches eval_step (test_loader e) m' (PyInt 0)) _)
    as [vl'|x] eqn:D2; cbn [bind] in L; [|discriminate].
  injection L as <- <- <- <-. split.
  - refine (average_is_tensor _ _ _ _ _ D1).
    + intros N. apply Z. now apply length_zero_iff_nil.
    + intros N. apply T. left. intros E. apply N. now rewrite E.
  - refine (average_is_tensor _ _ _ _ _ D2).
    + intros N. apply length_zero_iff_nil in N. now rewrite N.
    + intros N. apply V. left. intros E. apply N. now rewrite E.
Qed.

(** Every entry that the loop adds to the two lists is a tensor. *)
Lemma goes_tensors (epochs : list nat) (st st' : State) :
  goes epochs st st' ->
  Forall is_tensor (train_loss st) -> Forall is_tensor (test_loss st) ->
  Forall is_tensor (train_loss st') /\ Forall is_tensor (test_loss st') /\
  List.length (train_loss st') = List.length (train_loss st)
                                 + List.length epochs /\
  List.length (test_loss st') = List.length (test_loss st)
                                + List.length epochs.
Proof.
  induction 1 as [st|e rest st s1 s2 E G IH]; intros HT HV.
  - simpl. rewrite !Nat.add_0_r. auto.
  - apply continue_inv in E
      as [_ [_ [_ [m [o [tl [vl [L [_ [E1 [E2 _]]]]]]]]]]].
    destruct (epoch_losses_tensor _ _ _ _ _ _ L) as [Ht Hv].
    destruct IH as [I1 [I2 [I3 I4]]].
    + rewrite E1. apply Forall_app. auto.
    + rewrite E2. apply Forall_app. auto.
    + repeat split; auto.
      * rewrite I3, E1, length_app. simpl. lia.
      * rewrite I4, E2, length_app. simpl. lia.
Qed.

Lemma break_losses (e : nat) (st st' : State) :
  body e st = Break st' ->
  exists m o tl vl,
    losses e st = Ok (m, o, tl, vl) /\
    train_loss st' = train_loss st ++ [tl] /\
    test_loss st' = test_loss st ++ [vl] /\
    summary st' = summary st ++ [EpochLine e tl vl; EarlyStopLine e].
Proof.
  intros H. pose proof (epoch_body_cases e st) as C.
  destruct (losses e st) as [[[[m o] tl] vl]|x] eqn:L;
    [|rewrite C in H; discriminate].
  cbn zeta in C.
  destruct (fst (invoke (early_stopping st) vl m)) eqn:I.
  - destruct (checkpoint st) as [saved|] eqn:K; rewrite C in H;
      [|discriminate].
    injection H as <-. cbn. exists m, o, tl, vl. repeat split.
    now rewrite <- app_assoc.
  - rewrite C in H. discriminate.
Qed.

Lemma mapM_to_numpy_tensors (l : list pyval) :
  Forall is_tensor l ->
  mapM to_numpy l = Ok (map (fun x => NDArray (number x)) l).
Proof.
  induction 1 as [|x l [q ->] F IH]; simpl; [reflexivity|].
  now rewrite IH.
Qed.

(** Lines 754-756 on a non-empty list of tensors: line 755 converts the list
    that line 754 has already turned into arrays, and an array has no
    [detach]. *)
Lemma convert_and_plot_tensors (tl vl : list pyval) :
  tl <> [] -> Forall is_tensor tl ->
  convert_and_plot tl vl = Raise AttributeError.
Proof.
  intros N F. unfold convert_and_plot.
  rewrite (mapM_to_numpy_tensors tl F). cbn [bind].
  destruct tl as [|x tl]; [contradiction|]. reflexivity.
Qed.

(** The lists as the loop leaves them when it did not raise. *)
Lemma loop_lists (st0 st : State) (n : nat) :
  train_loss st0 = [] -> test_loss st0 = [] ->
  (loop st0 = Finished st /\ n = num_epochs) \/ loop st0 = Stopped n st ->
  Forall is_tensor (train_loss st) /\ Forall is_tensor (test_loss st) /\
  train_loss st <> [] /\
  List.length (test_loss st) = List.length (train_loss st).
Proof.
  intros T0 V0 [[H _]|H].
  - apply loop_finished in H as [G _].
    destruct (goes_tensors _ _ _ G) as [F1 [F2 [L1 L2]]];
      [rewrite T0; constructor | rewrite V0; constructor |].
    rewrite T0 in L1. rewrite V0 in L2. rewrite length_seq in L1, L2.
    repeat split; auto; [|lia].
    intros E. rewrite E in L1. discriminate L1.
  - unfold training_loop in H.
    pose proof (run_epochs_spec (seq 0 num_epochs) st0) as S.
    rewrite H in S. destruct S as [pre [post [st_e [_ [G B]]]]].
    destruct (goes_tensors _ _ _ G) as [F1 [F2 [L1 L2]]];
      [rewrite T0; constructor | rewrite V0; constructor |].
    apply break_losses in B as [m [o [tl [vl [L [E1 [E2 _]]]]]]].
    destruct (epoch_losses_tensor _ _ _ _ _ _ L) as [Ht Hv].
    rewrite E1, E2. repeat split.
    + apply Forall_app. auto.
    + apply Forall_app. auto.
    + intros E. apply app_eq_nil in E as [_ E]. discriminate E.
    + rewrite !length_app, L1, L2, T0, V0. reflexivity.
Qed.

Lemma train_batches_total (bs : list batch) :
  forall m o acc,
    number (snd (train_batches train_step bs m o acc)) =
    fold_left Qplus (pass_losses train_step bs m o) (number acc).
Proof.
  induction bs as [|b rest IH]; intros m o acc; simpl; [reflexivity|].
  destruct (train_step m o b) as [[m' o'] l]. simpl. now rewrite IH.
Qed.

Lemma test_batches_total (bs : list batch) :
  forall m acc,
    number (test_batches eval_step bs m acc) =
    fold_left Qplus (map (eval_step m) bs) (number acc).
Proof.
  induction bs as [|b rest IH]; intros m acc; simpl; [reflexivity|].
  now rewrite IH.
Qed.

Lemma tensor_number (x : pyval) : is_tensor x -> x = TensorV (number x).
Proof. now intros [q ->]. Qed.

(** Lines 678-710: an epoch that runs to its end appends to [train_loss] the
    sum of the losses of its training batches divided by their number, and
    to [test_loss] the same for the test batches under the trained
    parameters; both loaders have a batch. *)
Theorem epoch_records_averages (e : nat) (st st' : State) :
  epoch_body train_step eval_step invoke train_loader test_loader e st
  = Continue st' ->
  train_loader e <> [] /\ test_loader e <> [] /\
  train_loss st' =
    train_loss st ++
    [TensorV (fold_left Qplus
                (pass_losses train_step (train_loader e) (model st)
                   (optimizer st)) 0%Q
              / inject_Z (Z.of_nat (List.length (train_loader e))))] /\
  test_loss st' =
    test_loss st ++
    [TensorV (fold_left Qplus (map (eval_step (model st')) (test_loader e))
                0%Q
              / inject_Z (Z.of_nat (List.length (test_loader e))))].
Proof.
  intros H. apply continue_inv in H
    as [_ [_ [_ [m [o [tl [vl [L [M [E1 [E2 _]]]]]]]]]]].
  rewrite E1, E2, M. clear E1 E2 M st'.
  unfold epoch_losses in L.
  pose proof (train_batches_total (train_loader e) (model st) (optimizer st)
                (PyInt 0)) as T.
  pose proof (train_batches_tensor (train_loader e) (model st) (optimizer st)
                (PyInt 0)) as TT.
  destruct (train_batches train_step (train_loader e) (model st)
              (optimizer st) (PyInt 0)) as [[m' o'] bl] eqn:TB.
  simpl in T, TT.
  destruct (py_div bl _) as [tl'|x] eqn:D1; cbn [bind] in L; [|discriminate].
  pose proof (test_batches_total (test_loader e) m' (PyInt 0)) as V.
  pose proof (test_batches_tensor (test_loader e) m' (PyInt 0)) as VV.
  destruct (py_div (test_batches eval_step (test_loader e) m' (PyInt 0)) _)
    as [vl'|x] eqn:D2; cbn [bind] in L; [|discriminate].
  injection L as <- <- <- <-.
  assert (N1 : train_loader e <> []).
  { intros E. rewrite E in TB, D1. simpl in TB, D1.
    injection TB as _ _ <-. discriminate D1. }
  assert (N2 : test_loader e <> []).
  { intros E. rewrite E in D2. simpl in D2. discriminate D2. }
  rewrite (tensor_number bl (TT (or_introl N1))) in D1.
  rewrite (tensor_number _ (VV (or_introl N2))) in D2.
  simpl in D1, D2. injection D1 as <-. injection D2 as <-.
  rewrite T, V. auto.
Qed.

(** C7, what the code does: after a run that did not raise, [train_loss]
    and [test_loss] hold one tensor for each epoch that was entered, but
    lines 754-756 never plot the recorded [test_loss]: line 755 rebuilds
    [test_loss] from [train_loss], whatever was recorded, and on the arrays
    that line 754 has left in [train_loss] it raises [AttributeError], so
    that [plot_losses] is not reached. *)
Theorem recorded_test_loss_is_not_plotted (st0 st : State) (n : nat) :
  train_loss st0 = [] -> test_loss st0 = [] ->
  (loop st0 = Finished st /\ n = num_epochs) \/ loop st0 = Stopped n st ->
  List.length (test_loss st) = List.length (train_loss st) /\
  Forall is_tensor (train_loss st) /\ Forall is_tensor (test_loss st) /\
  convert_and_plot (train_loss st) (test_loss st) = Raise AttributeError /\
  forall recorded,
    convert_and_plot (train_loss st) recorded =
    convert_and_plot (train_loss st) (test_loss st).
Proof.
  intros T0 V0 H.
  destruct (loop_lists st0 st n T0 V0 H) as [F1 [F2 [N L]]].
  repeat split; auto.
  now apply convert_and_plot_tensors.
Qed.

(** When the loop stops early after the first epoch, the file
    [13_summary.txt] holds the lines up to the epoch before: neither the
    line of the last epoch nor the line about early stopping is written. *)
Theorem summary_file_misses_the_stop (st0 st : State) (e : nat) :
  training_loop train_step eval_step invoke train_loader test_loader st0
  = Stopped e st ->
  0 < e ->
  exists written tl vl,
    summary_file st = Some written /\
    summary st = written ++ [EpochLine e tl vl; EarlyStopLine e].
Proof.
  unfold training_loop. intros H He.
  pose proof (run_epochs_spec (seq 0 num_epochs) st0) as S.
  rewrite H in S. destruct S as [pre [post [st_e [C [G B]]]]].
  apply seq_split_at in C as [-> _].
  destruct (break_inv e st_e st B) as [_ [_ [_ F]]].
  destruct (break_losses e st_e st B) as [m [o [tl [vl [_ [_ [_ Sm]]]]]]].
  exists (summary st_e), tl, vl. split; [|exact Sm].
  rewrite F. destruct e as [|e]; [lia|].
  rewrite seq_S in G. apply goes_split in G as [a [_ Hb]].
  inversion Hb as [|? ? ? s1 ? E G']; subst. inversion G'; subst.
  now apply continue_inv in E.
Qed.

End LoopFacts.

Section Figure.
Import Training.

Lemma mapM_to_numpy_raises (l : list pyval) (e : exn) :
  mapM to_numpy l = Raise e -> e = AttributeError.
Proof.
  induction l as [|x l IH]; simpl; [discriminate|].
  destruct x; simpl; try (intros [= <-]; reflexivity);
    destruct (mapM to_numpy l); simpl; try discriminate;
    intros [= <-]; now apply IH.
Qed.

(** Lines 754-756 never return a figure: without losses [min] raises
    [ValueError], and with losses one of the two conversions raises
    [AttributeError]. *)
Theorem convert_and_plot_always_raises (train_loss test_loss : list pyval) :
  convert_and_plot train_loss test_loss = Raise ValueError \/
  convert_and_plot train_loss test_loss = Raise AttributeError.
Proof.
  unfold convert_and_plot. destruct train_loss as [|x l]; [now left|].
  right. simpl.
  destruct x; simpl; try reflexivity;
    destruct (mapM to_numpy l) as [bs|e] eqn:M; simpl; try reflexivity;
    now rewrite (mapM_to_numpy_raises l e M).
Qed.

End Figure.

Section LoopExamples.
Import Training.


Lemma recorded_test_loss_is_not_plotted_witness :
  exists st,
    demo_run = Stopped 3 st /\
    map (fun x => Qred (number x)) (train_loss st) = [2; 2; 2; 2]%Q /\
    map (fun x => Qred (number x)) (test_loss st) = [4; 4; 4; 4]%Q /\
    convert_and_plot (train_loss st) (test_loss st) = Raise AttributeError.
Proof.
  unfold demo_run.
  destruct (training_loop demo_train_step demo_eval_step demo_invoke
              demo_train_loader demo_test_loader demo_start) as [st|e st|e x] eqn:E;
    pose proof E as E'; vm_compute in E'; try discriminate E'.
  destruct (recorded_test_loss_is_not_plotted nat nat nat Q
              demo_train_step demo_eval_step demo_invoke demo_train_loader
              demo_test_loader demo_start st e eq_refl eq_refl (or_intror E))
    as [_ [_ [_ [P _]]]].
  injection E' as <- <-.
  eexists. split; [reflexivity|]. split; [reflexivity|].
  split; [reflexivity | exact P].
Defined.

Lemma summary_file_misses_the_stop_witness :
  exists st written,
    demo_run = Stopped 3 st /\
    summary_file st = Some written /\
    List.length written = 3 /\ List.length (summary st) = 5.
Proof.
  unfold demo_run.
  destruct (training_loop demo_train_step demo_eval_step demo_invoke
              demo_train_loader demo_test_loader demo_start) as [st|e st|e x] eqn:E;
    pose proof E as E'; vm_compute in E'; try discriminate E'.
  injection E' as <- <-.
  destruct (summary_file_misses_the_stop nat nat nat Q
              demo_train_step demo_eval_step demo_invoke demo_train_loader
              demo_test_loader demo_start _ 3 E ltac:(lia))
    as [written [tl [vl [F S]]]].
  eexists. exists written. split; [reflexivity|].
  split; [exact F|]. simpl in F. injection F as <-.
  split; reflexivity.
Defined.

Lemma epoch_records_averages_witness :
  exists st,
    epoch_body demo_train_step demo_eval_step demo_invoke demo_train_loader
      demo_test_loader 0 demo_start = Continue st /\
    map (fun x => Qred (number x)) (train_loss st) = [2]%Q /\
    map (fun x => Qred (number x)) (test_loss st) = [4]%Q.
Proof.
  destruct (epoch_body demo_train_step demo_eval_step demo_invoke
              demo_train_loader demo_test_loader 0 demo_start)
    as [st|st|x] eqn:E;
    pose proof E as E'; vm_compute in E'; try discriminate E'.
  destruct (epoch_records_averages nat nat nat Q demo_train_step
              demo_eval_step demo_invoke demo_train_loader demo_test_loader
              0 demo_start st E) as [_ [_ [T V]]].
  exists st. split; [reflexivity|]. rewrite T, V.
  injection E' as <-. split; reflexivity.
Defined.

End LoopExamples.
